(** * Applicant analysis scripts: a shallow embedding and its properties

    The repository holds two generations of one batch script.  [analyse.py]
    (with its untyped twin [analyse_original.py]) is the legacy pipeline,
    [analyser2020.py] the newer one.  Both load a CSV file into a pandas
    data frame, clean the name columns, drop duplicates, and fill a
    [Qualify] column.

    A data frame is modelled as the list of its rows in positional order,
    each row carrying its index label (the first CSV column, because of
    [index_col=0]) and a finite map from column names to cell values.
    Operations that pandas or Python would abort with an exception
    ([KeyError], [AttributeError], [TypeError], [ValueError]) return
    [None].  The closing [sort_values] of [read_data_file], the summary
    counts and the spreadsheet writer are not part of this development. *)

From Stdlib Require Import ZArith Ascii String List Lia.
From stdpp Require Import base option list gmap strings fin_maps sorting.

Local Open Scope Z_scope.

(** ** Cells, rows and frames *)

(** A cell as [read_csv] produces it: text, an integer, or the float NaN
    that stands for an empty field. *)
Inductive value :=
  | VStr (s : string)
  | VInt (z : Z)
  | VNaN.

#[global] Instance value_eq_dec : EqDecision value.
Proof. solve_decision. Defined.

Abbreviation row := (gmap string value).
Abbreviation DataFrame := (list (value * gmap string value)).

(** [dataframe[column] = v] : broadcast one value over a whole column. *)
Definition assign_column (column : string) (v : value) (dataframe : DataFrame)
  : DataFrame :=
  map (λ x, (x.1, <[column:=v]> x.2)) dataframe.

(** [dataframe.set_value(index, column, v)] and [dataframe.at[index, column] = v]
    address a row by its index label: every row carrying that label is
    written. *)
Definition set_value (dataframe : DataFrame) (index : value) (column : string)
    (v : value) : DataFrame :=
  map (λ x, if decide (x.1 = index) then (x.1, <[column:=v]> x.2) else x)
      dataframe.

(** [for index, row in dataframe.iterrows(): body].  The rows handed to the
    body are those the frame had when the loop started; the body acts on the
    frame itself. *)
Fixpoint iterrows (body : value → row → DataFrame → option DataFrame)
    (pending : DataFrame) (dataframe : DataFrame) : option DataFrame :=
  match pending with
  | [] => Some dataframe
  | (index, r) :: rest =>
      dataframe' ← body index r dataframe;
      iterrows body rest dataframe'
  end.

(** The loop bodies of the scripts all have one shape: compute a cell from
    the row just read (or decide to write nothing) and store it under the
    row's label. *)
Definition store (column : string) (cell : row → option (option value))
    (index : value) (r : row) (dataframe : DataFrame) : option DataFrame :=
  v ← cell r;
  Some (match v with
        | Some x => set_value dataframe index column x
        | None => dataframe
        end).

(** A frame has a column when each of its rows has a cell for it. *)
Definition has_column (column : string) (dataframe : DataFrame) : Prop :=
  Forall (λ x, is_Some (x.2 !! column)) dataframe.

#[global] Instance has_column_dec column dataframe :
  Decision (has_column column dataframe).
Proof. unfold has_column. apply _. Defined.

(** [dataframe.drop_duplicates(subset=[column])]: going down the frame, a row
    is kept when no row above it has the same cell in [column].  [seen]
    holds the cells met so far.  Empty cells (NaN) compare equal to each
    other here, as in pandas' [duplicated]. *)
Fixpoint keep_first (column : string) (seen : list (option value))
    (dataframe : DataFrame) : DataFrame :=
  match dataframe with
  | [] => []
  | x :: rest =>
      let key := x.2 !! column in
      if decide (key ∈ seen) then keep_first column (key :: seen) rest
      else x :: keep_first column (key :: seen) rest
  end.

Definition drop_duplicates (column : string) (dataframe : DataFrame)
  : option DataFrame :=
  if decide (has_column column dataframe)
  then Some (keep_first column [] dataframe)
  else None.

(** [dataframe.loc[dataframe[column] == text]] *)
Definition loc_eq (column : string) (text : string) (dataframe : DataFrame)
  : option DataFrame :=
  if decide (has_column column dataframe)
  then Some (filter (λ x, x.2 !! column = Some (VStr text)) dataframe)
  else None.

(** ** Text *)

(** Characters are modelled as 7-bit ASCII, where [str.upper] only moves the
    letters a-z and [str.split] cuts at the characters [str.isspace]
    accepts: tab, line feed, vertical tab, form feed, carriage return, the
    four separators 28-31 and the space. *)
Definition upper_char (c : ascii) : ascii :=
  let n := nat_of_ascii c in
  if ((97 <=? n) && (n <=? 122))%nat then ascii_of_nat (n - 32) else c.

Fixpoint upper (s : string) : string :=
  match s with
  | EmptyString => EmptyString
  | String c rest => String (upper_char c) (upper rest)
  end.

Definition isspace (c : ascii) : bool :=
  let n := nat_of_ascii c in
  (((9 <=? n) && (n <=? 13)) || ((28 <=? n) && (n <=? 32)))%nat.

(** [s.split()], reading [s] left to right with the word under
    construction in [word]. *)
Fixpoint split_from (word : string) (s : string) : list string :=
  match s with
  | EmptyString => if decide (word = "") then [] else [word]
  | String c rest =>
      if isspace c then
        if decide (word = "") then split_from "" rest
        else word :: split_from "" rest
      else split_from (word +:+ String c "") rest
  end.

Definition split (s : string) : list string := split_from "" s.

(** [sep.join(parts)] *)
Fixpoint join (sep : string) (parts : list string) : string :=
  match parts with
  | [] => ""
  | [part] => part
  | part :: rest => part +:+ sep +:+ join sep rest
  end.

(** [lambda x: ' '.join(x.split())] *)
Definition collapse (x : string) : string := join " " (split x).

(** [dataframe[column] = dataframe[column].apply(f)] for an [f] that only
    text supports: any other cell raises. *)
Definition apply_text (column : string) (f : string → string)
    (dataframe : DataFrame) : option DataFrame :=
  mapM (λ x : value * row,
          v ← x.2 !! column;
          match v with
          | VStr s => Some (x.1, <[column:=VStr (f s)]> x.2)
          | _ => None
          end) dataframe.

(** [dataframe.insert(position, column, v)] refuses a column that is already
    there.  Rows are maps, so the position plays no part. *)
Definition insert_column (column : string) (v : value)
    (dataframe : DataFrame) : option DataFrame :=
  if decide (Exists (λ x, is_Some (x.2 !! column)) dataframe) then None
  else Some (assign_column column v dataframe).

(** ** Dates *)

Record date := Date { year : Z; month : Z; day : Z }.

Definition digit (c : ascii) : option Z :=
  let n := nat_of_ascii c in
  if ((48 <=? n) && (n <=? 57))%nat then Some (Z.of_nat n - 48) else None.

Definition is_leap (y : Z) : bool :=
  (y mod 4 =? 0) && (negb (y mod 100 =? 0) || (y mod 400 =? 0)).

Definition days_in_month (y m : Z) : Z :=
  if m =? 2 then (if is_leap y then 29 else 28)
  else if (m =? 4) || (m =? 6) || (m =? 9) || (m =? 11) then 30
  else 31.

(** The directive [%Y]: exactly four digits. *)
Definition read_year (s : string) : option (Z * string) :=
  match s with
  | String a (String b (String c (String d rest))) =>
      a ← digit a; b ← digit b; c ← digit c; d ← digit d;
      Some (1000 * a + 100 * b + 10 * c + d, rest)
  | _ => None
  end.

(** The directive [%m], the pattern [1[0-2]|0[1-9]|[1-9]]. *)
Definition read_month (s : string) : option (Z * string) :=
  match s with
  | String a rest =>
      a ← digit a;
      let two :=
        match rest with
        | String b rest' =>
            b ← digit b;
            if (a =? 1) && (b <=? 2) then Some (10 + b, rest')
            else if (a =? 0) && (1 <=? b) then Some (b, rest')
            else None
        | EmptyString => None
        end in
      match two with
      | Some found => Some found
      | None => if 1 <=? a then Some (a, rest) else None
      end
  | EmptyString => None
  end.

(** The directive [%d], the pattern [3[01]|[12]\d|0[1-9]|[1-9]| [1-9]]. *)
Definition read_day (s : string) : option (Z * string) :=
  match s with
  | String a rest =>
      let two :=
        match digit a, rest with
        | Some a, String b rest' =>
            b ← digit b;
            if (a =? 3) && (b <=? 1) then Some (30 + b, rest')
            else if (1 <=? a) && (a <=? 2) then Some (10 * a + b, rest')
            else if (a =? 0) && (1 <=? b) then Some (b, rest')
            else None
        | _, _ => None
        end in
      match two with
      | Some found => Some found
      | None =>
          match digit a with
          | Some a => if 1 <=? a then Some (a, rest) else None
          | None =>
              if decide (a = " "%char) then
                match rest with
                | String b rest' =>
                    b ← digit b;
                    if 1 <=? b then Some (b, rest') else None
                | EmptyString => None
                end
              else None
          end
      end
  | EmptyString => None
  end.

Definition expect (c : ascii) (s : string) : option string :=
  match s with
  | String c' rest => if decide (c' = c) then Some rest else None
  | EmptyString => None
  end.

(** [datetime.strptime(born, "%Y-%m-%d")], keeping the calendar date.  The
    whole text has to be consumed and the triple has to be a date of the
    calendar. *)
Definition strptime (born : string) : option date :=
  '(y, rest) ← read_year born;
  rest ← expect "-" rest;
  '(m, rest) ← read_month rest;
  rest ← expect "-" rest;
  '(d, rest) ← read_day rest;
  if decide (rest = "") then
    if (1 <=? y) && (1 <=? m) && (m <=? 12) && (1 <=? d)
       && (d <=? days_in_month y m)
    then Some (Date y m d) else None
  else None.

(** Python's [<] on pairs. *)
Definition pair_lt (a b : Z * Z) : bool :=
  (a.1 <? b.1) || ((a.1 =? b.1) && (a.2 <? b.2)).

(** [calculate_age], the same in both scripts; [today] is what
    [date.today()] returns. *)
Definition calculate_age (today : date) (born : string) : option Z :=
  born ← strptime born;
  Some (year today - year born
        - (if pair_lt (month today, day today) (month born, day born)
           then 1 else 0)).

(** ** Queries, counts and order *)



(** [int((dataframe[column] == text).sum())] *)
Definition count_eq (column : string) (text : string) (dataframe : DataFrame)
  : option nat :=
  if decide (has_column column dataframe)
  then Some (length (filter (λ x, x.2 !! column = Some (VStr text)) dataframe))
  else None.

(** The text of a cell, for the comparisons of [sort_values]. *)
Definition cell_text (cell : option value) : string :=
  match cell with
  | Some (VStr s) => s
  | _ => ""
  end.

Definition text_le (column : string) (x y : value * row) : Prop :=
  String.le (cell_text (x.2 !! column)) (cell_text (y.2 !! column)).

#[global] Instance text_le_dec column : RelDecision (text_le column).
Proof. intros x y. unfold text_le. apply _. Defined.

(** [dataframe.sort_values([column], ascending=True)] on a column of text
    whose cells are all different, which is what [read_data_file] of
    [analyse.py] sorts: texts compare character by character, and with no
    two cells equal every sorting method ends in the same order. *)
Definition sort_values (column : string) (dataframe : DataFrame) : DataFrame :=
  merge_sort (text_le column) dataframe.

(** One line of the summary sheet. *)
Record SummaryRow := Summary { Count : nat; Males : nat; Females : nat }.

(** [[len(group), int(males), int(females)]] *)
Definition summary_row (group : DataFrame) : option SummaryRow :=
  males ← count_eq "gender" "Male" group;
  females ← count_eq "gender" "Female" group;
  Some (Summary (length group) males females).

(** [summary_df.sum()]: the sum of every column of the summary. *)
Definition column_sums (table : list (string * SummaryRow)) : SummaryRow :=
  foldr (λ line total,
           Summary (Count line.2 + Count total) (Males line.2 + Males total)
                   (Females line.2 + Females total))
        (Summary 0 0 0) table.

(** ** The legacy pipeline, [analyse.py] *)

Module Legacy.

Definition clinical_officer : string :=
  "Ordinary Diploma in Clinical Medicine (fresh from school to become Clinical Officer, three years)".
Definition upgrading : string :=
  "Ordinary Diploma in Clinical Medicine (CA to CO upgrading, one year)".
Definition information_science : string :=
  "Ordinary Diploma in Health Information Science (three years)".

Definition credit_c (score : value) : string :=
  let possible_values := [VStr "A"; VStr "B"; VStr "C"] in
  if decide (score ∈ possible_values) then "Yes" else "No".

Definition credit_d (score : value) : string :=
  let possible_values := [VStr "A"; VStr "B"; VStr "C"; VStr "D"] in
  if decide (score ∈ possible_values) then "Yes" else "No".

(** The body of the loop of [check_qualification]: [None] inside means that
    the row is not of the Clinical Officer course and nothing is written. *)
Definition qualify (r : row) : option (option value) :=
  course ← r !! "course";
  if decide (course = VStr clinical_officer) then
    biology ← r !! "biology";
    chemistry ← r !! "chemistry";
    physics ← r !! "physics";
    maths ← r !! "maths";
    english ← r !! "english";
    let qualifications :=
      [credit_c biology; credit_c chemistry;
       credit_d physics; credit_d maths; credit_d english] in
    if decide ("No" ∈ qualifications)
    then Some (Some (VStr "No"))
    else Some (Some (VStr "Yes"))
  else Some None.

Definition check_qualification (dataframe : DataFrame) : option DataFrame :=
  let dataframe := assign_column "Qualify" (VStr "") dataframe in
  iterrows (store "Qualify" qualify) dataframe dataframe.

(** The two passes of [read_data_file] that remove duplicates. *)
Definition deduplicate (dataframe : DataFrame) : option DataFrame :=
  dataframe ← drop_duplicates "oLevelNumber" dataframe;
  drop_duplicates "name" dataframe.

Definition split_courses (dataframe : DataFrame)
  : option (DataFrame * DataFrame * DataFrame) :=
  ca_co_upgrading ← loc_eq "course" upgrading dataframe;
  resident_co ← loc_eq "course" clinical_officer dataframe;
  his ← loc_eq "course" information_science dataframe;
  Some (ca_co_upgrading, resident_co, his).


(** [dataframe.insert(3, 'age_calc', dataframe['birthDate'].apply(...))]:
    the ages are computed first, then the column is inserted, which a column
    of that name already there prevents. *)
Definition insert_age (today : date) (dataframe : DataFrame)
  : option DataFrame :=
  ages ← mapM (λ x : value * row,
                 born ← x.2 !! "birthDate";
                 match born with
                 | VStr born => calculate_age today born
                 | _ => None
                 end) dataframe;
  if decide (Exists (λ x, is_Some (x.2 !! "age_calc")) dataframe) then None
  else Some (zip_with (λ (x : value * row) age,
                         (x.1, <["age_calc":=VInt age]> x.2))
                      dataframe ages).

(** [read_data_file], from the point where the columns carry their names. *)
Definition read_data_file (today : date) (dataframe : DataFrame)
  : option DataFrame :=
  dataframe ← apply_text "name" upper dataframe;
  dataframe ← apply_text "name" collapse dataframe;
  dataframe ← drop_duplicates "oLevelNumber" dataframe;
  dataframe ← drop_duplicates "name" dataframe;
  dataframe ← insert_age today dataframe;
  Some (sort_values "name" dataframe).

(** The summary sheet of [run]: one line per course and the line of
    totals. *)
Definition summary (splitted : DataFrame * DataFrame * DataFrame)
  : option (list (string * SummaryRow)) :=
  let '(ca_co_upgrading, resident_co, his) := splitted in
  CACO ← summary_row ca_co_upgrading;
  rCO ← summary_row resident_co;
  HIS ← summary_row his;
  let summary_df := [("CACO", CACO); ("rCO", rCO); ("HIS", HIS)] in
  Some (summary_df ++ [("Total", column_sums summary_df)]).

(** [run] for a file that exists: what goes into the four sheets of
    [candidates.xlsx]. *)
Definition run (today : date) (dataframe : DataFrame)
  : option (list (string * SummaryRow)
            * (DataFrame * DataFrame * DataFrame)) :=
  dataframe ← read_data_file today dataframe;
  dataframe ← check_qualification dataframe;
  splitted ← split_courses dataframe;
  summary_df ← summary splitted;
  Some (summary_df, splitted).

End Legacy.

(** ** The newer pipeline, [analyser2020.py] *)

Module Newer.

Definition grades : list value := [VStr "A"; VStr "B"; VStr "C"; VStr "D"].

(** The condition of the loop of [check_qualification]; [and] reads its
    right operand only when the left one holds. *)
Definition qualify (r : row) : option (option value) :=
  biology ← r !! "biology";
  if decide (biology ∈ grades) then
    chemistry ← r !! "chemistry";
    if decide (chemistry ∈ grades) then
      physics ← r !! "physics";
      if decide (physics ∈ grades)
      then Some (Some (VStr "Yes"))
      else Some (Some (VStr "No"))
    else Some (Some (VStr "No"))
  else Some (Some (VStr "No")).

Definition check_qualification (dataframe : DataFrame) : option DataFrame :=
  let dataframe := assign_column "Qualify" (VStr "") dataframe in
  iterrows (store "Qualify" qualify) dataframe dataframe.

(** The name clean-up at the head of [read_data_file]. *)
Definition normalize_names (dataframe : DataFrame) : option DataFrame :=
  dataframe ← apply_text "first_name" upper dataframe;
  dataframe ← apply_text "second_name" upper dataframe;
  dataframe ← apply_text "surname" upper dataframe;
  dataframe ← apply_text "first_name" collapse dataframe;
  dataframe ← apply_text "second_name" collapse dataframe;
  apply_text "surname" collapse dataframe.

(** The body of the loop of [create_full_name]; [+] raises unless both
    sides are text. *)
Definition fullname (r : row) : option (option value) :=
  first_name ← r !! "first_name";
  second_name ← r !! "second_name";
  surname ← r !! "surname";
  match first_name, second_name, surname with
  | VStr first_name, VStr second_name, VStr surname =>
      Some (Some (VStr (first_name +:+ " " +:+ second_name +:+ " " +:+ surname)))
  | _, _, _ => None
  end.

Definition create_full_name (dataframe : DataFrame) : option DataFrame :=
  dataframe ← insert_column "full_name" (VStr "") dataframe;
  iterrows (store "full_name" fullname) dataframe dataframe.

(** [read_data_file] up to the point where the full name is in place. *)
Definition named (dataframe : DataFrame) : option DataFrame :=
  dataframe ← normalize_names dataframe;
  create_full_name dataframe.

(** The one pass of [read_data_file] that removes duplicates. *)
Definition deduplicate (dataframe : DataFrame) : option DataFrame :=
  drop_duplicates "full_name" dataframe.

(** [read_data_file] short of its closing sort on the first name. *)
Definition loaded (dataframe : DataFrame) : option DataFrame :=
  dataframe ← named dataframe;
  deduplicate dataframe.

(** The one line of the summary sheet of [run]. *)
Definition summary (dataframe : DataFrame) : option (list (string * SummaryRow)) :=
  males_count ← count_eq "gender" "Male" dataframe;
  females_count ← count_eq "gender" "Female" dataframe;
  Some [("Candidates", Summary (length dataframe) males_count females_count)].

End Newer.

(** ** Bookkeeping for the proofs *)

(** What a [store] loop leaves in a row read as [x]. *)
Definition written (column : string) (cell : row → option (option value))
    (x : value * row) : value * row :=
  match cell x.2 with
  | Some (Some v) => (x.1, <[column:=v]> x.2)
  | _ => x
  end.

(** The first pending row that carries a given label. *)
Fixpoint row_at (index : value) (pending : DataFrame) : option row :=
  match pending with
  | [] => None
  | x :: rest => if decide (x.1 = index) then Some x.2 else row_at index rest
  end.

(** What the rest of a [store] loop does to a row [y] of the frame: the
    pending row with the label of [y] decides. *)
Definition touched (column : string) (cell : row → option (option value))
    (pending : DataFrame) (y : value * row) : value * row :=
  match row_at y.1 pending with
  | Some r =>
      match cell r with
      | Some (Some v) => (y.1, <[column:=v]> y.2)
      | _ => y
      end
  | None => y
  end.

(** Two frames agree on labels, order and every column but one. *)
Definition same_but (column : string) (before after : DataFrame) : Prop :=
  Forall2 (λ x y, x.1 = y.1 ∧ ∀ c, c ≠ column → y.2 !! c = x.2 !! c)
          before after.

(** The same records in the same order, every field but one as before. *)
Definition untouched_outside (column : string) (before after : DataFrame)
  : Prop :=
  length after = length before ∧
  ∀ (i : nat) index r,
    before !! i = Some (index, r) →
    ∃ r', after !! i = Some (index, r') ∧
          ∀ c, c ≠ column → r' !! c = r !! c.

(** A date of the calendar, and its text in the form YYYY-MM-DD. *)
Definition calendar (d : date) : Prop :=
  1 ≤ year d ≤ 9999 ∧ 1 ≤ month d ≤ 12 ∧
  1 ≤ day d ≤ days_in_month (year d) (month d).

Definition digit_char (n : Z) : ascii := ascii_of_nat (48 + Z.to_nat n).

Definition two_digits (n : Z) : string :=
  String (digit_char (n / 10)) (String (digit_char (n mod 10)) "").

Definition four_digits (n : Z) : string :=
  String (digit_char (n / 1000))
    (String (digit_char (n / 100 mod 10)) (two_digits (n mod 100))).

Definition isoformat (d : date) : string :=
  four_digits (year d) +:+ "-" +:+ two_digits (month d)
  +:+ "-" +:+ two_digits (day d).

(** The ways of writing a month and a day that the patterns of [%m] and
    [%d] take: two digits, or below ten one digit, for the day also one
    digit after a space.  The writings of a date put them behind the four
    digits of the year, with hyphens between. *)
Definition digit_text (n : Z) : string := String (digit_char n) "".

Definition month_writings (m : Z) : list string :=
  two_digits m :: (if m <? 10 then [digit_text m] else []).

Definition day_writings (d : Z) : list string :=
  two_digits d
  :: (if d <? 10 then [digit_text d; String " " (digit_text d)] else []).

Definition writings (d : date) : list string :=
  m ← month_writings (month d);
  dd ← day_writings (day d);
  [four_digits (year d) +:+ "-" +:+ m +:+ "-" +:+ dd].

(** The orderings on dates in the words of the specification:
    (today.month, today.day) ≥ (born.month, born.day), and a birth date that
    is not later than today. *)
Definition birthday_reached (today born : date) : Prop :=
  month born < month today ∨
  (month born = month today ∧ day born ≤ day today).

Definition born_by (today born : date) : Prop :=
  year born < year today ∨
  (year born = year today ∧ birthday_reached today born).

(** The first date is not later than the second. *)
Definition not_later (a b : date) : Prop :=
  year a < year b ∨
  (year a = year b ∧
   (month a < month b ∨ (month a = month b ∧ day a ≤ day b))).

(** A name as the specification calls it normalized: uppercased, then with
    its whitespace collapsed. *)
Definition normalized (name : string) : string := collapse (upper name).

(** The text has two spaces in a row. *)
Fixpoint double_space (s : string) : bool :=
  match s with
  | EmptyString => false
  | String a rest =>
      match rest with
      | String b _ => (Ascii.eqb a " " && Ascii.eqb b " ") || double_space rest
      | EmptyString => false
      end
  end.

Fixpoint ends_with_space (s : string) : bool :=
  match s with
  | EmptyString => false
  | String c rest =>
      match rest with
      | EmptyString => Ascii.eqb c " "
      | String _ _ => ends_with_space rest
      end
  end.

(** The text has a letter a-z in it. *)
Fixpoint has_lower (s : string) : bool :=
  match s with
  | EmptyString => false
  | String c rest =>
      ((97 <=? nat_of_ascii c)%nat && (nat_of_ascii c <=? 122)%nat)
      || has_lower rest
  end.

Definition starts_with_space (s : string) : bool :=
  match s with
  | String c _ => Ascii.eqb c " "
  | EmptyString => false
  end.

Fixpoint no_space (s : string) : bool :=
  match s with
  | EmptyString => true
  | String c rest => negb (isspace c) && no_space rest
  end.

(** What [split] hands out: a text that is not empty and has no whitespace
    in it. *)
Definition word (w : string) : Prop := w ≠ "" ∧ no_space w = true.

(** The cell holds text. *)
Definition is_text (cell : option value) : Prop :=
  match cell with
  | Some (VStr _) => True
  | _ => False
  end.

#[global] Instance is_text_dec cell : Decision (is_text cell).
Proof. destruct cell as [[]|]; simpl; apply _. Defined.

Definition has_text (column : string) (dataframe : DataFrame) : Prop :=
  Forall (λ x, is_text (x.2 !! column)) dataframe.

Definition lacks_column (column : string) (dataframe : DataFrame) : Prop :=
  Forall (λ x, x.2 !! column = None) dataframe.

Definition text_of (column : string) (r : row) : string :=
  match r !! column with
  | Some (VStr s) => s
  | _ => ""
  end.

(** What [apply_text] makes of a row that has text in the column. *)
Definition retext (column : string) (f : string → string)
    (x : value * row) : value * row :=
  (x.1, <[column:=VStr (f (text_of column x.2))]> x.2).

(** What [Newer.normalize_names] makes of such a row. *)
Definition name_row (x : value * row) : value * row :=
  retext "surname" collapse
    (retext "second_name" collapse
       (retext "first_name" collapse
          (retext "surname" upper
             (retext "second_name" upper
                (retext "first_name" upper x))))).

(** Every birth date cell holds a text that [strptime] accepts. *)
Definition valid_births (dataframe : DataFrame) : Prop :=
  Forall (λ x, match x.2 !! "birthDate" with
               | Some (VStr born) => is_Some (strptime born)
               | _ => False
               end) dataframe.

#[global] Instance valid_births_dec dataframe : Decision (valid_births dataframe).
Proof.
  unfold valid_births. apply Forall_dec. intros x.
  destruct (x.2 !! "birthDate") as [[born| |]|]; apply _.
Defined.

(** What [Legacy.insert_age] adds to such a row. *)
Definition age_of (today : date) (x : value * row) : Z :=
  match x.2 !! "birthDate" with
  | Some (VStr born) => default 0 (calculate_age today born)
  | _ => 0
  end.

Definition with_age (today : date) (x : value * row) : value * row :=
  (x.1, <["age_calc":=VInt (age_of today x)]> x.2).

(** What the legacy [read_data_file] makes of an input row that it keeps:
    the name normalized, the age added, nothing else touched. *)
Definition read_row (today : date) (x : value * row) : value * row :=
  with_age today (retext "name" collapse (retext "name" upper x)).

(** The registration number of the record was left empty in the CSV file. *)
Definition blank_number (x : value * row) : Prop :=
  x.2 !! "oLevelNumber" = Some VNaN.

#[global] Instance blank_number_dec x : Decision (blank_number x).
Proof. unfold blank_number. apply _. Defined.

(** The record's own course field reads [text]. *)
Definition course_is (text : string) (x : value * row) : Prop :=
  x.2 !! "course" = Some (VStr text).

(** The record applied for none of the three courses of [split_courses]. *)
Definition unlisted (x : value * row) : Prop :=
  ¬ course_is Legacy.upgrading x ∧
  ¬ course_is Legacy.clinical_officer x ∧
  ¬ course_is Legacy.information_science x.

(** The eligibility rules in the words of the specification. *)
Definition grade_in (allowed : list string) (column : string) (r : row)
  : Prop :=
  ∃ s, r !! column = Some (VStr s) ∧ s ∈ allowed.

Definition credit_or_above : list string := ["A"; "B"; "C"].
Definition pass_or_above : list string := ["A"; "B"; "C"; "D"].

Definition strict_rule (r : row) : Prop :=
  grade_in credit_or_above "biology" r ∧
  grade_in credit_or_above "chemistry" r ∧
  grade_in pass_or_above "physics" r ∧
  grade_in pass_or_above "maths" r ∧
  grade_in pass_or_above "english" r.

Definition uniform_rule (r : row) : Prop :=
  grade_in pass_or_above "biology" r ∧
  grade_in pass_or_above "chemistry" r ∧
  grade_in pass_or_above "physics" r.

(** The columns the two evaluators read. *)
Definition legacy_consulted : list string :=
  ["course"; "biology"; "chemistry"; "physics"; "maths"; "english"].
Definition newer_consulted : list string :=
  ["biology"; "chemistry"; "physics"].

Definition has_columns (columns : list string) (dataframe : DataFrame)
  : Prop :=
  Forall (λ c, has_column c dataframe) columns.

(** ** Sample frames *)

Definition applicant (course biology chemistry physics maths english : string)
  : row :=
  list_to_map
    [("course", VStr course); ("biology", VStr biology);
     ("chemistry", VStr chemistry); ("physics", VStr physics);
     ("maths", VStr maths); ("english", VStr english)].

Definition sample_applicants : DataFrame :=
  [(VInt 0, applicant Legacy.clinical_officer "C" "B" "D" "D" "D");
   (VInt 1, applicant Legacy.clinical_officer "D" "C" "C" "A" "A");
   (VInt 2, applicant Legacy.information_science "A" "A" "A" "A" "A");
   (VInt 3, applicant Legacy.upgrading "F" "D" "D" "A" "A");
   (VInt 4, applicant "Certificate in Nursing" "D" "D" "D" "F" "F")].

Definition candidate (name : string) (number : value) : row :=
  list_to_map [("name", VStr name); ("oLevelNumber", number)].

(** Two applicants who both left the registration number empty. *)
Definition unnumbered : DataFrame :=
  [(VInt 0, candidate "ASHA JUMA" VNaN);
   (VInt 1, candidate "BARAKA MUSA" VNaN)].

(** Five submissions: the second repeats the registration number of the
    first, the fourth the name of the third. *)
Definition submissions : DataFrame :=
  [(VInt 0, candidate "ASHA JUMA" (VStr "S0101/0001/2015"));
   (VInt 1, candidate "ASHA J" (VStr "S0101/0001/2015"));
   (VInt 2, candidate "BARAKA MUSA" (VStr "S0202/0002/2016"));
   (VInt 3, candidate "BARAKA MUSA" (VStr "S0303/0003/2016"));
   (VInt 4, candidate "NEEMA PAUL" (VStr "S0404/0004/2017"))].

Definition entrant (full_name : string) : row :=
  list_to_map [("full_name", VStr full_name)].

Definition entrants : DataFrame :=
  [(VInt 0, entrant "ASHA M JUMA"); (VInt 1, entrant "ASHA M JUMA");
   (VInt 2, entrant "NEEMA P PAUL")].

Definition person (first_name second_name surname : string) : row :=
  list_to_map
    [("first_name", VStr first_name); ("second_name", VStr second_name);
     ("surname", VStr surname)].

(** The second applicant typed one space for a middle name. *)
Definition sample_names : DataFrame :=
  [(VInt 0, person "  john" " peter " "Doe ");
   (VInt 1, person "Asha" " " "Juma")].

(** The second applicant left the middle name empty, which [read_csv] turns
    into NaN. *)
Definition no_middle_name : DataFrame :=
  [(VInt 0, person "Asha" "M" "Juma");
   (VInt 1, <["second_name":=VNaN]> (person "Neema" "" "Paul"))].

(** An applicant without a name. *)
Definition no_name : DataFrame :=
  [(VInt 0, <["name":=VNaN]> (candidate "" (VStr "S0101/0001/2015")))].

(** Three answers to the question of gender, one of them in lower case. *)
Definition polled : DataFrame :=
  [(VInt 0, {["gender" := VStr "Male"]});
   (VInt 1, {["gender" := VStr "Female"]});
   (VInt 2, {["gender" := VStr "female"]})].

(** A whole record of the legacy schema, as far as the script looks at it. *)
Definition enrolment (name number born gender course : string)
    (biology chemistry physics maths english : string) : row :=
  <["name":=VStr name]> (<["oLevelNumber":=VStr number]>
    (<["birthDate":=VStr born]> (<["gender":=VStr gender]>
       (applicant course biology chemistry physics maths english)))).

Definition enrolments : DataFrame :=
  [(VInt 0, enrolment " neema  paul" "S0404/0004/2017" "2000-02-29" "Female"
              Legacy.clinical_officer "B" "C" "D" "D" "D");
   (VInt 1, enrolment "Asha Juma" "S0101/0001/2015" "1999-07-24" "Female"
              Legacy.clinical_officer "D" "C" "C" "A" "A");
   (VInt 2, enrolment "ASHA JUMA " "S0909/0009/2015" "1999-07-24" "Female"
              Legacy.upgrading "A" "A" "A" "A" "A");
   (VInt 3, enrolment "Baraka Musa" "S0202/0002/2016" "1998-12-01" "Male"
              Legacy.information_science "F" "F" "F" "F" "F");
   (VInt 4, enrolment "Juma Ali" "S0505/0005/2016" "1997-01-15" "male"
              "Certificate in Nursing" "A" "A" "A" "A" "A")].

(** Two submissions filed under one label. *)
Definition repeated_labels : DataFrame :=
  [(VStr "2018/07/23 10:15:02", applicant Legacy.clinical_officer "A" "B" "C" "D" "D");
   (VStr "2018/07/23 10:15:02", applicant Legacy.clinical_officer "F" "F" "C" "D" "D")].

(** A record of the newer schema, as far as the script looks at it: no
    course column. *)
Definition admission (first_name second_name surname gender : string)
    (physics chemistry biology maths english : string) : row :=
  list_to_map
    [("first_name", VStr first_name); ("second_name", VStr second_name);
     ("surname", VStr surname); ("gender", VStr gender);
     ("physics", VStr physics); ("chemistry", VStr chemistry);
     ("biology", VStr biology); ("maths", VStr maths);
     ("english", VStr english)].

(** Four submissions to the newer form; the first two were filed under one
    label, and the last repeats the name of the third. *)
Definition admissions : DataFrame :=
  [(VStr "2020/08/03 09:00:41",
    admission "asha" "m" "juma" "Female" "D" "D" "D" "F" "F");
   (VStr "2020/08/03 09:00:41",
    admission "Baraka" "J" "Musa" "Male" "A" "B" "F" "A" "A");
   (VStr "2020/08/03 09:12:07",
    admission "Neema" "P" "Paul" "Female" "C" "C" "F" "A" "A");
   (VStr "2020/08/04 16:30:00",
    admission " neema" "p " "PAUL" "Female" "A" "A" "A" "A" "A")].

(** Two applicants to the newer form filed under one label, handed to the
    evaluator without going through the loader. *)
Definition unloaded : DataFrame :=
  [(VStr "2020/08/03 09:00:41",
    admission "Asha" "M" "Juma" "Female" "A" "B" "C" "A" "A");
   (VStr "2020/08/03 09:00:41",
    admission "Baraka" "J" "Musa" "Male" "A" "B" "F" "A" "A")].



(** ** Properties *)

(** The two equations of text concatenation. *)
Lemma app_empty (b : string) : "" +:+ b = b.
Proof. reflexivity. Qed.

Lemma app_cons c (a b : string) : String c a +:+ b = String c (a +:+ b).
Proof. reflexivity. Qed.

Lemma assign_column_labels column v (dataframe : DataFrame) :
  (assign_column column v dataframe).*1 = dataframe.*1.
Proof.
  unfold assign_column.
  induction dataframe as [|x rest IH]; [done|].
  rewrite map_cons, !fmap_cons. by rewrite IH.
Qed.

Section store_loop.
Variable column : string.
Variable cell : row → option (option value).

Lemma row_at_None index (pending : DataFrame) :
  index ∉ pending.*1 → row_at index pending = None.
Proof.
  induction pending as [|x rest IH]; simpl; [done|].
  rewrite not_elem_of_cons. intros [Hne Hrest].
  destruct (decide (x.1 = index)); [congruence|auto].
Qed.

Lemma row_at_own (pending : DataFrame) x :
  NoDup pending.*1 → x ∈ pending → row_at x.1 pending = Some x.2.
Proof.
  induction pending as [|y rest IH]; simpl.
  - intros _ Hin. by apply elem_of_nil in Hin.
  - rewrite NoDup_cons. intros [Hfresh Hnd] Hin.
    apply elem_of_cons in Hin as [->|Hin].
    + by rewrite decide_True.
    + destruct (decide (y.1 = x.1)) as [Heq|Hne]; [|auto].
      exfalso. apply Hfresh. rewrite Heq.
      apply list_elem_of_fmap. by exists x.
Qed.

Lemma store_defined index r (dataframe : DataFrame) v :
  cell r = Some v →
  store column cell index r dataframe
  = Some (match v with
          | Some x => set_value dataframe index column x
          | None => dataframe
          end).
Proof. intros Hv. unfold store. by rewrite Hv. Qed.

Lemma iterrows_store_touched (pending dataframe : DataFrame) :
  NoDup pending.*1 →
  Forall (λ x, is_Some (cell x.2)) pending →
  iterrows (store column cell) pending dataframe
  = Some (map (touched column cell pending) dataframe).
Proof.
  revert dataframe.
  induction pending as [|[index r] rest IH]; intros dataframe Hnd Hcell.
  - simpl. f_equal. induction dataframe as [|y d IHd]; simpl; [done|].
    by rewrite <- IHd.
  - rewrite fmap_cons in Hnd. apply NoDup_cons in Hnd as [Hfresh Hnd].
    cbn [fst] in Hfresh.
    apply Forall_cons in Hcell as [[v Hv] Hcell]. cbn [snd] in Hv.
    cbn [iterrows]. rewrite (store_defined _ _ dataframe _ Hv).
    cbn [mbind option_bind].
    rewrite (IH _ Hnd Hcell). f_equal.
    assert (Hstep : ∀ y : value * row,
      touched column cell rest
        (match v with
         | Some x => if decide (y.1 = index)
                     then (y.1, <[column:=x]> y.2) else y
         | None => y
         end)
      = touched column cell ((index, r) :: rest) y).
    { intros y. unfold touched. cbn [row_at fst snd].
      destruct (decide (index = y.1)) as [Heq|Hne].
      - subst index. rewrite Hv.
        destruct v as [x|];
          [rewrite decide_True by done; cbn [fst snd]|];
          by rewrite (row_at_None _ _ Hfresh).
      - destruct v as [x|]; [rewrite decide_False by congruence|]; done. }
    destruct v as [x|].
    + unfold set_value. rewrite map_map. apply map_ext. intros y.
      apply (Hstep y).
    + apply map_ext. intros y. apply (Hstep y).
Qed.

(** With distinct labels the loop writes each row from its own cells. *)
Lemma iterrows_store_unique (dataframe : DataFrame) :
  NoDup dataframe.*1 →
  Forall (λ x, is_Some (cell x.2)) dataframe →
  iterrows (store column cell) dataframe dataframe
  = Some (map (written column cell) dataframe).
Proof.
  intros Hnd Hcell. rewrite iterrows_store_touched by done. f_equal.
  apply map_ext_in. intros y Hy. apply list_elem_of_In in Hy.
  unfold touched, written. rewrite (row_at_own _ _ Hnd Hy).
  by destruct (cell y.2) as [[v|]|].
Qed.
End store_loop.

(** *** Frames that differ in one column *)

Section one_column.
Variable column : string.

Lemma same_but_refl (dataframe : DataFrame) :
  same_but column dataframe dataframe.
Proof. unfold same_but. apply Forall2_same_length_lookup_2; [done|].
  intros i x y Hx Hy. by simplify_eq. Qed.

Lemma same_but_trans (d1 d2 d3 : DataFrame) :
  same_but column d1 d2 → same_but column d2 d3 → same_but column d1 d3.
Proof.
  unfold same_but. intros H12. revert d3.
  induction H12 as [|x y d1 d2 [Hl Hc] _ IH]; intros d3 H23.
  - by apply Forall2_nil_inv_l in H23 as ->.
  - apply Forall2_cons_inv_l in H23 as (z & d3' & [Hl' Hc'] & H23 & ->).
    constructor; [|by apply IH].
    split; [congruence|]. intros c Hne. by rewrite Hc', Hc.
Qed.

Lemma same_but_set_value (dataframe : DataFrame) index v :
  same_but column dataframe (set_value dataframe index column v).
Proof.
  unfold same_but, set_value.
  induction dataframe as [|x rest IH]; simpl; constructor; [|done].
  destruct (decide (x.1 = index)); simpl; split; try done.
  intros c Hne. by rewrite lookup_insert_ne.
Qed.

Lemma same_but_assign_column (dataframe : DataFrame) v :
  same_but column dataframe (assign_column column v dataframe).
Proof.
  unfold same_but, assign_column.
  induction dataframe as [|x rest IH]; simpl; constructor; [|done].
  split; [done|]. intros c Hne. simpl. by rewrite lookup_insert_ne.
Qed.

Lemma same_but_lookup (before after : DataFrame) i index r :
  same_but column before after →
  before !! i = Some (index, r) →
  ∃ r', after !! i = Some (index, r') ∧
        ∀ c, c ≠ column → r' !! c = r !! c.
Proof.
  intros Hsame Hi.
  destruct (Forall2_lookup_l _ _ _ _ _ Hsame Hi) as ([index' r'] & Hi' & Hl & Hc).
  simpl in Hl, Hc. subst index'. by exists r'.
Qed.

Lemma same_but_length (before after : DataFrame) :
  same_but column before after → length after = length before.
Proof. intros H. symmetry. by apply Forall2_length in H. Qed.

Variable cell : row → option (option value).

(** Whatever the labels are, a [store] loop ends and leaves every other
    column alone. *)
Lemma iterrows_store_frame (pending dataframe : DataFrame) :
  Forall (λ x, is_Some (cell x.2)) pending →
  ∃ result, iterrows (store column cell) pending dataframe = Some result ∧
            same_but column dataframe result.
Proof.
  revert dataframe.
  induction pending as [|[index r] rest IH]; intros dataframe Hcell.
  - exists dataframe. split; [done|apply same_but_refl].
  - apply Forall_cons in Hcell as [[v Hv] Hcell]. cbn [snd] in Hv.
    cbn [iterrows]. rewrite (store_defined _ _ _ _ dataframe _ Hv).
    cbn [mbind option_bind].
    destruct (IH (match v with
                  | Some x => set_value dataframe index column x
                  | None => dataframe
                  end) Hcell) as (result & Hrun & Hsame).
    exists result. split; [done|].
    eapply same_but_trans; [|exact Hsame].
    destruct v; [apply same_but_set_value|apply same_but_refl].
Qed.

(** With distinct labels, a loop that does not read the column it writes
    fills it row by row. *)
Lemma fill_column_unique (dataframe : DataFrame) blank :
  (∀ r v, cell (<[column:=v]> r) = cell r) →
  NoDup dataframe.*1 →
  Forall (λ x, is_Some (cell x.2)) dataframe →
  iterrows (store column cell) (assign_column column blank dataframe)
           (assign_column column blank dataframe)
  = Some (map (λ x, (x.1, <[column:=match cell x.2 with
                                     | Some (Some v) => v
                                     | _ => blank
                                     end]> x.2)) dataframe).
Proof.
  intros Hblind Hnd Hcell.
  rewrite iterrows_store_unique.
  - f_equal. unfold assign_column. rewrite map_map. apply map_ext.
    intros x. unfold written. cbn [fst snd]. rewrite Hblind.
    destruct (cell x.2) as [[v|]|]; [|done|done].
    by rewrite insert_insert_eq.
  - by rewrite assign_column_labels.
  - unfold assign_column. apply Forall_forall. intros y Hy.
    apply list_elem_of_fmap in Hy as (x & -> & Hx). cbn [snd].
    rewrite Hblind. by apply (proj1 (Forall_forall _ _) Hcell).
Qed.
End one_column.

(** *** The grade checks *)

Lemma grade_member (allowed : list string) (v : value) :
  v ∈ (VStr <$> allowed) ↔ ∃ s, v = VStr s ∧ s ∈ allowed.
Proof.
  rewrite list_elem_of_fmap. split; intros (s & Hs & Hin); by exists s.
Qed.

Lemma credit_c_grade (r : row) column v :
  r !! column = Some v →
  (Legacy.credit_c v = "Yes" ∧ grade_in credit_or_above column r) ∨
  (Legacy.credit_c v = "No" ∧ ¬ grade_in credit_or_above column r).
Proof.
  intros Hv. unfold Legacy.credit_c, grade_in.
  change [VStr "A"; VStr "B"; VStr "C"] with (VStr <$> credit_or_above).
  destruct (decide (v ∈ VStr <$> credit_or_above)) as [Hin|Hout].
  - left. split; [done|].
    apply grade_member in Hin as (s & -> & Hin). by exists s.
  - right. split; [done|]. intros (s & Hs & Hin). apply Hout.
    apply grade_member. exists s. split; [congruence|done].
Qed.

Lemma credit_d_grade (r : row) column v :
  r !! column = Some v →
  (Legacy.credit_d v = "Yes" ∧ grade_in pass_or_above column r) ∨
  (Legacy.credit_d v = "No" ∧ ¬ grade_in pass_or_above column r).
Proof.
  intros Hv. unfold Legacy.credit_d, grade_in.
  change [VStr "A"; VStr "B"; VStr "C"; VStr "D"]
    with (VStr <$> pass_or_above).
  destruct (decide (v ∈ VStr <$> pass_or_above)) as [Hin|Hout].
  - left. split; [done|].
    apply grade_member in Hin as (s & -> & Hin). by exists s.
  - right. split; [done|]. intros (s & Hs & Hin). apply Hout.
    apply grade_member. exists s. split; [congruence|done].
Qed.

Lemma grade_in_cell (allowed : list string) column (r : row) s :
  bool_decide (r !! column = Some (VStr s) ∧ s ∈ allowed) = true →
  grade_in allowed column r.
Proof. intros H%bool_decide_eq_true. by exists s. Qed.

Lemma newer_grade (r : row) column v :
  r !! column = Some v →
  v ∈ Newer.grades ↔ grade_in pass_or_above column r.
Proof.
  intros Hv. unfold grade_in.
  change Newer.grades with (VStr <$> pass_or_above).
  rewrite grade_member. split; intros (s & Hs & Hin); exists s.
  - split; [congruence|done].
  - split; [congruence|done].
Qed.

Lemma has_columns_row columns (dataframe : DataFrame) x c :
  has_columns columns dataframe → x ∈ dataframe → c ∈ columns →
  is_Some (x.2 !! c).
Proof.
  intros Hcols Hx Hc.
  exact (proj1 (Forall_forall _ _) (proj1 (Forall_forall _ _) Hcols c Hc) x Hx).
Qed.

(** *** The legacy evaluator on one row *)

Lemma legacy_qualify_other (r : row) course :
  r !! "course" = Some course → course ≠ VStr Legacy.clinical_officer →
  Legacy.qualify r = Some None.
Proof.
  intros Hcourse Hne. unfold Legacy.qualify. rewrite Hcourse.
  cbn [mbind option_bind]. by rewrite decide_False.
Qed.

Lemma legacy_qualify_clinical (r : row) :
  r !! "course" = Some (VStr Legacy.clinical_officer) →
  (∀ c, c ∈ legacy_consulted → is_Some (r !! c)) →
  (strict_rule r → Legacy.qualify r = Some (Some (VStr "Yes"))) ∧
  (¬ strict_rule r → Legacy.qualify r = Some (Some (VStr "No"))).
Proof.
  intros Hcourse Hcols.
  destruct (Hcols "biology") as [b Hb]; [set_solver|].
  destruct (Hcols "chemistry") as [c Hc]; [set_solver|].
  destruct (Hcols "physics") as [p Hp]; [set_solver|].
  destruct (Hcols "maths") as [m Hm]; [set_solver|].
  destruct (Hcols "english") as [e He]; [set_solver|].
  unfold Legacy.qualify, strict_rule.
  rewrite Hcourse, Hb, Hc, Hp, Hm, He. cbn [mbind option_bind].
  rewrite decide_True by done.
  destruct (credit_c_grade r _ _ Hb) as [[-> Gb]|[-> Gb]];
  destruct (credit_c_grade r _ _ Hc) as [[-> Gc]|[-> Gc]];
  destruct (credit_d_grade r _ _ Hp) as [[-> Gp]|[-> Gp]];
  destruct (credit_d_grade r _ _ Hm) as [[-> Gm]|[-> Gm]];
  destruct (credit_d_grade r _ _ He) as [[-> Ge]|[-> Ge]];
  (split; [try done; intros (?&?&?&?&?); done|try done; intros Hn; exfalso; by apply Hn]).
Qed.

Lemma legacy_qualify_blind (r : row) v :
  Legacy.qualify (<["Qualify":=v]> r) = Legacy.qualify r.
Proof. unfold Legacy.qualify. by rewrite !lookup_insert_ne. Qed.

Lemma legacy_qualify_defined (dataframe : DataFrame) :
  has_columns legacy_consulted dataframe →
  Forall (λ x, is_Some (Legacy.qualify x.2)) dataframe.
Proof.
  intros Hcols. apply Forall_forall. intros x Hx.
  assert (Hrow : ∀ c, c ∈ legacy_consulted → is_Some (x.2 !! c))
    by (intros c; by apply (has_columns_row _ dataframe)).
  destruct (Hrow "course") as [course Hcourse]; [set_solver|].
  destruct (decide (course = VStr Legacy.clinical_officer)) as [->|Hne].
  - destruct (Hrow "biology") as [b Hb]; [set_solver|].
    destruct (Hrow "chemistry") as [c Hc]; [set_solver|].
    destruct (Hrow "physics") as [p Hp]; [set_solver|].
    destruct (Hrow "maths") as [m Hm]; [set_solver|].
    destruct (Hrow "english") as [e He]; [set_solver|].
    unfold Legacy.qualify.
    rewrite Hcourse, Hb, Hc, Hp, Hm, He. cbn [mbind option_bind].
    rewrite decide_True by done. by case_decide.
  - by rewrite (legacy_qualify_other _ _ Hcourse Hne).
Qed.

(** *** The newer evaluator on one row *)

Lemma newer_qualify_rule (r : row) :
  (∀ c, c ∈ newer_consulted → is_Some (r !! c)) →
  (uniform_rule r → Newer.qualify r = Some (Some (VStr "Yes"))) ∧
  (¬ uniform_rule r → Newer.qualify r = Some (Some (VStr "No"))).
Proof.
  intros Hcols.
  destruct (Hcols "biology") as [b Hb]; [set_solver|].
  destruct (Hcols "chemistry") as [c Hc]; [set_solver|].
  destruct (Hcols "physics") as [p Hp]; [set_solver|].
  unfold Newer.qualify, uniform_rule.
  rewrite Hb, Hc, Hp. cbn [mbind option_bind].
  rewrite <- (newer_grade r _ _ Hb), <- (newer_grade r _ _ Hc),
    <- (newer_grade r _ _ Hp).
  repeat case_decide; split; try done; try (intros (?&?&?); done);
    intros Hn; exfalso; by apply Hn.
Qed.

Lemma newer_qualify_blind (r : row) v :
  Newer.qualify (<["Qualify":=v]> r) = Newer.qualify r.
Proof. unfold Newer.qualify. by rewrite !lookup_insert_ne. Qed.

Lemma newer_qualify_defined (dataframe : DataFrame) :
  has_columns newer_consulted dataframe →
  Forall (λ x, is_Some (Newer.qualify x.2)) dataframe.
Proof.
  intros Hcols. apply Forall_forall. intros x Hx.
  assert (Hrow : ∀ c, c ∈ newer_consulted → is_Some (x.2 !! c))
    by (intros c; by apply (has_columns_row _ dataframe)).
  destruct (Hrow "biology") as [b Hb]; [set_solver|].
  destruct (Hrow "chemistry") as [c Hc]; [set_solver|].
  destruct (Hrow "physics") as [p Hp]; [set_solver|].
  unfold Newer.qualify. rewrite Hb, Hc, Hp. cbn [mbind option_bind].
  by repeat case_decide.
Qed.

(** *** Closed forms of the two evaluators on frames with distinct labels *)

Lemma legacy_check_qualification_unique (dataframe : DataFrame) :
  NoDup dataframe.*1 →
  has_columns legacy_consulted dataframe →
  Legacy.check_qualification dataframe
  = Some (map (λ x, (x.1, <["Qualify":=match Legacy.qualify x.2 with
                                       | Some (Some v) => v
                                       | _ => VStr ""
                                       end]> x.2)) dataframe).
Proof.
  intros Hnd Hcols. unfold Legacy.check_qualification.
  apply fill_column_unique;
    [apply legacy_qualify_blind|done|by apply legacy_qualify_defined].
Qed.

Lemma newer_check_qualification_unique (dataframe : DataFrame) :
  NoDup dataframe.*1 →
  has_columns newer_consulted dataframe →
  Newer.check_qualification dataframe
  = Some (map (λ x, (x.1, <["Qualify":=match Newer.qualify x.2 with
                                       | Some (Some v) => v
                                       | _ => VStr ""
                                       end]> x.2)) dataframe).
Proof.
  intros Hnd Hcols. unfold Newer.check_qualification.
  apply fill_column_unique;
    [apply newer_qualify_blind|done|by apply newer_qualify_defined].
Qed.

(** Why the labels have to be distinct: two submissions filed under one
    label share the last verdict written, here that of the second. *)
Example repeated_labels_share_verdict :
  strict_rule (applicant Legacy.clinical_officer "A" "B" "C" "D" "D") ∧
  map (λ x : value * row, x.2 !! "Qualify")
    <$> Legacy.check_qualification repeated_labels
  = Some [Some (VStr "No"); Some (VStr "No")].
Proof.
  split; [|by vm_compute]. unfold strict_rule.
  split; [by apply (grade_in_cell _ _ _ "A")|].
  split; [by apply (grade_in_cell _ _ _ "B")|].
  split; [by apply (grade_in_cell _ _ _ "C")|].
  split; by apply (grade_in_cell _ _ _ "D").
Qed.

Lemma map_lookup_row {A B} (f : A → B) (l : list A) (i : nat) :
  map f l !! i = f <$> (l !! i).
Proof. apply (list_lookup_fmap f l i). Qed.

(** *** The claims about eligibility *)



(** The newer evaluator on its own: on a frame with distinct row labels it
    gives every record the verdict "Yes" when biology, chemistry and physics
    are in A-D and the verdict "No" otherwise, whatever the course, maths
    and english are. *)
Lemma newer_uniform_verdict (dataframe : DataFrame) :
  NoDup dataframe.*1 →
  has_columns newer_consulted dataframe →
  ∃ result,
    Newer.check_qualification dataframe = Some result ∧
    ∀ (i : nat) index r,
      dataframe !! i = Some (index, r) →
      ∃ r', result !! i = Some (index, r') ∧
            (uniform_rule r → r' !! "Qualify" = Some (VStr "Yes")) ∧
            (¬ uniform_rule r → r' !! "Qualify" = Some (VStr "No")).
Proof.
  intros Hnd Hcols.
  rewrite (newer_check_qualification_unique _ Hnd Hcols).
  eexists. split; [reflexivity|].
  intros i index r Hi.
  rewrite map_lookup_row, Hi. cbn [fmap option_fmap option_map fst snd].
  eexists. split; [reflexivity|]. rewrite lookup_insert_eq.
  assert (Hrow : ∀ c, c ∈ newer_consulted → is_Some (r !! c)).
  { intros c Hc.
    apply (has_columns_row _ dataframe (index, r) c Hcols); [|done].
    by apply list_elem_of_lookup_2 with i. }
  destruct (newer_qualify_rule r Hrow) as [Hyes Hno].
  split; intros Hrule; [rewrite (Hyes Hrule)|rewrite (Hno Hrule)]; done.
Qed.

Lemma newer_uniform_verdict_witness :
  ∃ result r3 r4,
    Newer.check_qualification sample_applicants = Some result ∧
    result !! 4%nat = Some (VInt 4, r4) ∧
    r4 !! "Qualify" = Some (VStr "Yes") ∧
    result !! 3%nat = Some (VInt 3, r3) ∧
    r3 !! "Qualify" = Some (VStr "No").
Proof.
  destruct (newer_uniform_verdict sample_applicants)
    as (result & Hrun & Hrows).
  - compute_done.
  - compute_done.
  - destruct (Hrows 4%nat _ _ eq_refl) as (r4 & H4 & Hyes & _).
    destruct (Hrows 3%nat _ _ eq_refl) as (r3 & H3 & _ & Hno).
    exists result, r3, r4. repeat split; try done.
    + apply Hyes. unfold uniform_rule.
      split; [by apply (grade_in_cell _ _ _ "D")|].
      split; by apply (grade_in_cell _ _ _ "D").
    + apply Hno. intros [(s & Hs & Hin) _].
      vm_compute in Hs. injection Hs as <-. revert Hin. compute_done.
Defined.



(** C10.  In both pipelines the evaluator returns the records it was given,
    in the same order and under the same labels, and no field other than
    Qualify differs; this holds even when row labels repeat.  The legacy
    frame needs the six columns its evaluator reads, the newer frame the
    three its evaluator reads. *)
Theorem check_qualification_frame (legacy newer : DataFrame) :
  has_columns legacy_consulted legacy →
  has_columns newer_consulted newer →
  (∃ result, Legacy.check_qualification legacy = Some result ∧
             untouched_outside "Qualify" legacy result) ∧
  (∃ result, Newer.check_qualification newer = Some result ∧
             untouched_outside "Qualify" newer result).
Proof.
  intros Hlegacy Hnewer.
  assert (Hframe : ∀ cell (dataframe : DataFrame),
    (∀ r v, cell (<["Qualify":=v]> r) = cell r) →
    Forall (λ x, is_Some (cell x.2)) dataframe →
    ∃ result,
      iterrows (store "Qualify" cell)
        (assign_column "Qualify" (VStr "") dataframe)
        (assign_column "Qualify" (VStr "") dataframe) = Some result ∧
      untouched_outside "Qualify" dataframe result).
  { intros cell dataframe Hblind Hcell.
    destruct (iterrows_store_frame "Qualify" cell
                (assign_column "Qualify" (VStr "") dataframe)
                (assign_column "Qualify" (VStr "") dataframe))
      as (result & Hrun & Hsame).
    - unfold assign_column. apply Forall_forall. intros y Hy.
      apply list_elem_of_fmap in Hy as (x & -> & Hx). cbn [snd].
      rewrite Hblind. by apply (proj1 (Forall_forall _ _) Hcell).
    - exists result. split; [done|].
      pose proof (same_but_trans _ _ _ _
        (same_but_assign_column "Qualify" dataframe (VStr "")) Hsame) as Hall.
      split; [by apply same_but_length in Hall|].
      intros i index r Hi. by apply (same_but_lookup _ _ _ _ _ _ Hall). }
  split.
  - apply (Hframe Legacy.qualify);
      [apply legacy_qualify_blind|by apply legacy_qualify_defined].
  - apply (Hframe Newer.qualify);
      [apply newer_qualify_blind|by apply newer_qualify_defined].
Qed.

Lemma check_qualification_frame_witness :
  (∃ result, Legacy.check_qualification repeated_labels = Some result ∧
             untouched_outside "Qualify" repeated_labels result) ∧
  (∃ result, Newer.check_qualification admissions = Some result ∧
             untouched_outside "Qualify" admissions result).
Proof.
  apply (check_qualification_frame repeated_labels admissions); compute_done.
Defined.

(** *** Splitting by course *)

Section three_way.
Context {A : Type} (P1 P2 P3 : A → Prop).
Context `{!∀ x, Decision (P1 x), !∀ x, Decision (P2 x),
          !∀ x, Decision (P3 x)}.
Hypothesis apart12 : ∀ x, P1 x → P2 x → False.
Hypothesis apart13 : ∀ x, P1 x → P3 x → False.
Hypothesis apart23 : ∀ x, P2 x → P3 x → False.

Lemma three_way_count (l : list A) :
  (length (filter P1 l) + length (filter P2 l) + length (filter P3 l)
   + length (filter (λ x, ¬ P1 x ∧ ¬ P2 x ∧ ¬ P3 x) l) = length l)%nat.
Proof.
  induction l as [|x l IH]; [done|].
  rewrite !filter_cons.
  destruct (decide (P1 x)) as [Hx1|Hx1];
  destruct (decide (P2 x)) as [Hx2|Hx2];
  destruct (decide (P3 x)) as [Hx3|Hx3];
  try (exfalso; eauto; fail);
  (destruct (decide (¬ P1 x ∧ ¬ P2 x ∧ ¬ P3 x)) as [Hn|Hn];
   [try (exfalso; tauto)|try (exfalso; tauto)]);
  cbn [length]; lia.
Qed.
End three_way.

Lemma courses_apart a b x : a ≠ b → course_is a x → course_is b x → False.
Proof. unfold course_is. intros Hne Ha Hb. congruence. Qed.

Lemma group_member text (dataframe : DataFrame) x :
  x ∈ filter (λ x : value * row, x.2 !! "course" = Some (VStr text)) dataframe
  ↔ x ∈ dataframe ∧ course_is text x.
Proof. rewrite list_elem_of_filter. unfold course_is. tauto. Qed.

(** C7.  The three groups of [split_courses] hold exactly the records whose
    own course field is the group's course name, no record is in two
    groups, the group sizes add up to at most the size of the input, and
    they add up to less exactly when some record applied for none of the
    three courses. *)
Theorem split_courses_partition (dataframe : DataFrame) :
  has_column "course" dataframe →
  ∃ ca_co_upgrading resident_co his,
    Legacy.split_courses dataframe = Some (ca_co_upgrading, resident_co, his) ∧
    (∀ x, x ∈ ca_co_upgrading ↔
          x ∈ dataframe ∧ course_is Legacy.upgrading x) ∧
    (∀ x, x ∈ resident_co ↔
          x ∈ dataframe ∧ course_is Legacy.clinical_officer x) ∧
    (∀ x, x ∈ his ↔
          x ∈ dataframe ∧ course_is Legacy.information_science x) ∧
    (∀ x, ¬ (x ∈ ca_co_upgrading ∧ x ∈ resident_co) ∧
          ¬ (x ∈ ca_co_upgrading ∧ x ∈ his) ∧
          ¬ (x ∈ resident_co ∧ x ∈ his)) ∧
    (length ca_co_upgrading + length resident_co + length his
     ≤ length dataframe)%nat ∧
    ((length ca_co_upgrading + length resident_co + length his
      < length dataframe)%nat ↔
     ∃ x, x ∈ dataframe ∧ unlisted x).
Proof.
  intros Hcourse. unfold Legacy.split_courses, loc_eq.
  rewrite !decide_True by done. cbn [mbind option_bind].
  eexists _, _, _. split; [reflexivity|].
  assert (H12 : ∀ x, course_is Legacy.upgrading x →
                     course_is Legacy.clinical_officer x → False)
    by (intros x; by apply courses_apart).
  assert (H13 : ∀ x, course_is Legacy.upgrading x →
                     course_is Legacy.information_science x → False)
    by (intros x; by apply courses_apart).
  assert (H23 : ∀ x, course_is Legacy.clinical_officer x →
                     course_is Legacy.information_science x → False)
    by (intros x; by apply courses_apart).
  pose proof (three_way_count
    (λ x : value * row, x.2 !! "course" = Some (VStr Legacy.upgrading))
    (λ x : value * row, x.2 !! "course" = Some (VStr Legacy.clinical_officer))
    (λ x : value * row,
       x.2 !! "course" = Some (VStr Legacy.information_science))
    H12 H13 H23 dataframe) as Hcount.
  cbv beta in Hcount.
  set (others := filter _ dataframe) in Hcount at 4.
  assert (Hothers : ∀ x, x ∈ others ↔ unlisted x ∧ x ∈ dataframe)
    by (intros x; apply list_elem_of_filter).
  clearbody others.
  split; [intros x; apply group_member|].
  split; [intros x; apply group_member|].
  split; [intros x; apply group_member|].
  split.
  { intros x. rewrite !group_member.
    split; [|split]; intros [[_ Ha] [_ Hb]]; eauto. }
  split; [lia|]. split.
  - intros Hless. destruct others as [|x rest].
    + cbn [length] in Hcount. lia.
    + exists x. apply and_comm, Hothers, elem_of_cons. by left.
  - intros (x & Hx & Hun).
    assert (Hin : x ∈ others) by by apply Hothers.
    destruct others as [|y rest].
    + by apply elem_of_nil in Hin.
    + cbn [length] in Hcount. lia.
Qed.

Lemma split_courses_partition_witness :
  ∃ ca_co_upgrading resident_co his,
    Legacy.split_courses sample_applicants
    = Some (ca_co_upgrading, resident_co, his) ∧
    (length ca_co_upgrading + length resident_co + length his
     < length sample_applicants)%nat.
Proof.
  destruct (split_courses_partition sample_applicants)
    as (g1 & g2 & g3 & Hrun & _ & _ & _ & _ & _ & Hless).
  - compute_done.
  - exists g1, g2, g3. split; [done|]. apply Hless.
    exists (VInt 4, applicant "Certificate in Nursing" "D" "D" "D" "F" "F").
    split; [by apply list_elem_of_lookup_2 with 4%nat|].
    unfold unlisted, course_is. compute_done.
Defined.

(** *** The age calculator *)

Lemma digit_digit_char n : 0 ≤ n ≤ 9 → digit (digit_char n) = Some n.
Proof.
  intros Hn.
  assert (Hcases : n = 0 ∨ n = 1 ∨ n = 2 ∨ n = 3 ∨ n = 4 ∨ n = 5 ∨ n = 6
                   ∨ n = 7 ∨ n = 8 ∨ n = 9) by lia.
  repeat (destruct Hcases as [->|Hcases]; [reflexivity|]).
  by subst n.
Qed.

Lemma read_year_four_digits y rest :
  0 ≤ y ≤ 9999 → read_year (four_digits y +:+ rest) = Some (y, rest).
Proof.
  intros Hy. unfold four_digits, two_digits. rewrite !app_cons, app_empty.
  cbn [read_year].
  rewrite !digit_digit_char by (Z.div_mod_to_equations; lia).
  cbn [mbind option_bind]. do 2 f_equal. Z.div_mod_to_equations. lia.
Qed.

Lemma read_month_two_digits m rest :
  1 ≤ m ≤ 12 → read_month (two_digits m +:+ rest) = Some (m, rest).
Proof.
  intros Hm.
  assert (Hcases : m = 1 ∨ m = 2 ∨ m = 3 ∨ m = 4 ∨ m = 5 ∨ m = 6 ∨ m = 7
                   ∨ m = 8 ∨ m = 9 ∨ m = 10 ∨ m = 11 ∨ m = 12) by lia.
  repeat (destruct Hcases as [->|Hcases]; [reflexivity|]).
  by subst m.
Qed.

Lemma read_day_two_digits d rest :
  1 ≤ d ≤ 31 → read_day (two_digits d +:+ rest) = Some (d, rest).
Proof.
  intros Hd.
  assert (Hcases : d = 1 ∨ d = 2 ∨ d = 3 ∨ d = 4 ∨ d = 5 ∨ d = 6 ∨ d = 7
                   ∨ d = 8 ∨ d = 9 ∨ d = 10 ∨ d = 11 ∨ d = 12 ∨ d = 13
                   ∨ d = 14 ∨ d = 15 ∨ d = 16 ∨ d = 17 ∨ d = 18 ∨ d = 19
                   ∨ d = 20 ∨ d = 21 ∨ d = 22 ∨ d = 23 ∨ d = 24 ∨ d = 25
                   ∨ d = 26 ∨ d = 27 ∨ d = 28 ∨ d = 29 ∨ d = 30 ∨ d = 31)
    by lia.
  repeat (destruct Hcases as [->|Hcases]; [reflexivity|]).
  by subst d.
Qed.

Lemma days_in_month_bound y m : days_in_month y m ≤ 31.
Proof. unfold days_in_month. repeat case_match; lia. Qed.

(** X8.  Every date of the calendar, written as YYYY-MM-DD, is read back
    as itself: the premise of the statements on [calculate_age] holds for
    all well-formed birth dates. *)
Lemma strptime_isoformat (d : date) :
  calendar d → strptime (isoformat d) = Some d.
Proof.
  destruct d as [y m dd]. unfold calendar, isoformat. cbn [year month day].
  intros (Hy & Hm & Hd). pose proof (days_in_month_bound y m) as Hmax.
  unfold strptime.
  rewrite read_year_four_digits by lia. cbn [mbind option_bind].
  rewrite app_cons, app_empty. cbn [expect]. rewrite decide_True by done.
  cbn [mbind option_bind].
  rewrite read_month_two_digits by lia. cbn [mbind option_bind].
  rewrite app_cons, app_empty. cbn [expect]. rewrite decide_True by done.
  cbn [mbind option_bind].
  rewrite <- (app_empty (two_digits dd)) at 1.
  change ("" +:+ two_digits dd) with (two_digits dd +:+ "").
  rewrite read_day_two_digits by lia. cbn [mbind option_bind].
  rewrite decide_True by done.
  replace (1 <=? y) with true by lia. replace (1 <=? m) with true by lia.
  replace (m <=? 12) with true by lia. replace (1 <=? dd) with true by lia.
  replace (dd <=? days_in_month y m) with true by lia. done.
Qed.

Lemma pair_lt_birthday (today born : date) :
  pair_lt (month today, day today) (month born, day born) = false
  ↔ birthday_reached today born.
Proof. unfold pair_lt, birthday_reached. cbn [fst snd]. lia. Qed.

Lemma calculate_age_parsed today born birth :
  strptime born = Some birth →
  calculate_age today born
  = Some (year today - year birth
          - (if pair_lt (month today, day today) (month birth, day birth)
             then 1 else 0)).
Proof. intros Hparse. unfold calculate_age. by rewrite Hparse. Qed.

(** C5.  For a birth date text that [strptime] accepts and any current
    date, the age is the difference of the years when the birthday has been
    reached this year and one less otherwise. *)
Theorem calculate_age_cases (today : date) (born : string) (birth : date) :
  strptime born = Some birth →
  (birthday_reached today birth →
   calculate_age today born = Some (year today - year birth)) ∧
  (¬ birthday_reached today birth →
   calculate_age today born = Some (year today - year birth - 1)) ∧
  (calculate_age today born = Some (year today - year birth) ∨
   calculate_age today born = Some (year today - year birth - 1)).
Proof.
  intros Hparse. rewrite (calculate_age_parsed _ _ _ Hparse).
  pose proof (pair_lt_birthday today birth) as Hlt.
  destruct (pair_lt _ _).
  - split; [|split].
    + intros Hreached. apply Hlt in Hreached. discriminate.
    + done.
    + by right.
  - split; [|split].
    + intros _. f_equal. lia.
    + intros Hnot. exfalso. by apply Hnot, Hlt.
    + left. f_equal. lia.
Qed.

Lemma calculate_age_cases_witness :
  calculate_age (Date 2018 7 23) "1999-07-23" = Some 19 ∧
  calculate_age (Date 2018 7 23) "1999-07-24" = Some 18.
Proof.
  split.
  - apply (calculate_age_cases (Date 2018 7 23) "1999-07-23" (Date 1999 7 23));
      [reflexivity|]. unfold birthday_reached. cbn [month day]. lia.
  - apply (calculate_age_cases (Date 2018 7 23) "1999-07-24" (Date 1999 7 24));
      [reflexivity|]. unfold birthday_reached. cbn [month day]. lia.
Defined.

(** C6, as the code has it.  For a birth date text that [strptime] accepts
    and that is not later than the current date, the age is a non-negative
    integer. *)
Theorem calculate_age_nonneg (today : date) (born : string) (birth : date) :
  strptime born = Some birth →
  born_by today birth →
  ∃ age, calculate_age today born = Some age ∧ 0 ≤ age.
Proof.
  intros Hparse Hborn. rewrite (calculate_age_parsed _ _ _ Hparse).
  eexists. split; [reflexivity|].
  pose proof (pair_lt_birthday today birth) as Hlt.
  destruct Hborn as [Hyear|[Hyear Hreached]].
  - destruct (pair_lt _ _); lia.
  - apply Hlt in Hreached. rewrite Hreached. lia.
Qed.

Lemma calculate_age_nonneg_witness :
  ∃ age, calculate_age (Date 2018 7 23) "2018-07-23" = Some age ∧ 0 ≤ age.
Proof.
  apply (calculate_age_nonneg (Date 2018 7 23) "2018-07-23" (Date 2018 7 23));
    [reflexivity|].
  unfold born_by, birthday_reached. cbn [year month day]. lia.
Defined.

(** A birth date mistyped into the future comes out as a negative age. *)
Lemma calculate_age_negative :
  strptime "2081-03-14" = Some (Date 2081 3 14) ∧
  ¬ ∃ age, calculate_age (Date 2018 7 23) "2081-03-14" = Some age ∧ 0 ≤ age.
Proof.
  split; [reflexivity|]. intros (age & Hage & Hpos).
  vm_compute in Hage. injection Hage as <-. lia.
Qed.

(** *** Dropping duplicates *)

Section first_wins.
Variable column : string.

Lemma keep_first_sublist seen (dataframe : DataFrame) :
  keep_first column seen dataframe `sublist_of` dataframe.
Proof.
  revert seen. induction dataframe as [|x rest IH]; intros seen;
    cbn [keep_first]; [done|].
  case_decide; [by apply sublist_cons|by apply sublist_skip].
Qed.

Lemma keep_first_fresh seen (dataframe : DataFrame) x :
  x ∈ keep_first column seen dataframe → x.2 !! column ∉ seen.
Proof.
  revert seen. induction dataframe as [|y rest IH]; intros seen;
    cbn [keep_first].
  - intros Hx. by apply elem_of_nil in Hx.
  - case_decide as Hseen.
    + intros Hx. apply IH in Hx. by apply not_elem_of_cons in Hx as [_ Hx].
    + intros Hx. apply elem_of_cons in Hx as [->|Hx]; [done|].
      apply IH in Hx. by apply not_elem_of_cons in Hx as [_ Hx].
Qed.

Lemma keep_first_NoDup seen (dataframe : DataFrame) :
  NoDup ((λ x : value * row, x.2 !! column)
         <$> keep_first column seen dataframe).
Proof.
  revert seen. induction dataframe as [|y rest IH]; intros seen;
    cbn [keep_first]; [constructor|].
  case_decide as Hseen; [apply IH|].
  rewrite fmap_cons. apply NoDup_cons. split; [|apply IH].
  intros Hdup. apply list_elem_of_fmap in Hdup as (x & Hkey & Hx).
  apply keep_first_fresh in Hx. apply Hx. rewrite Hkey.
  apply elem_of_cons. by left.
Qed.

(** A frame whose cells in the column are all different, and all new,
    passes unchanged. *)
Lemma keep_first_id seen (dataframe : DataFrame) :
  NoDup ((λ x : value * row, x.2 !! column) <$> dataframe) →
  (∀ x, x ∈ dataframe → x.2 !! column ∉ seen) →
  keep_first column seen dataframe = dataframe.
Proof.
  revert seen. induction dataframe as [|y rest IH]; intros seen Hnd Hnew;
    cbn [keep_first]; [done|].
  rewrite fmap_cons in Hnd. apply NoDup_cons in Hnd as [Hy Hnd].
  rewrite decide_False by (apply Hnew, elem_of_cons; by left).
  f_equal. apply IH; [done|]. intros x Hx.
  apply not_elem_of_cons. split.
  - intros Heq. apply Hy. rewrite <- Heq.
    apply list_elem_of_fmap. by exists x.
  - apply Hnew, elem_of_cons. by right.
Qed.

(** Of the rows with one given cell in the column, the first is kept and
    no other, unless the cell was met before. *)
Lemma keep_first_of_key seen (dataframe : DataFrame) k :
  filter (λ x : value * row, x.2 !! column = k)
         (keep_first column seen dataframe)
  = if decide (k ∈ seen) then []
    else take 1 (filter (λ x : value * row, x.2 !! column = k) dataframe).
Proof.
  revert seen. induction dataframe as [|y rest IH]; intros seen;
    cbn [keep_first].
  - rewrite filter_nil. by case_decide.
  - destruct (decide (y.2 !! column = k)) as [Hk|Hk].
    + rewrite (filter_cons_True _ y rest) by done.
      case_decide as Hseen.
      * rewrite IH. rewrite decide_True by (apply elem_of_cons; by left).
        rewrite decide_True by (by rewrite <- Hk). done.
      * rewrite filter_cons_True by done. rewrite IH.
        rewrite decide_True by (apply elem_of_cons; by left).
        rewrite decide_False by (by rewrite <- Hk). done.
    + rewrite (filter_cons_False _ y rest) by done.
      assert (Hiff : k ∈ y.2 !! column :: seen ↔ k ∈ seen).
      { rewrite elem_of_cons. split; [|by right].
        intros [Heq|Hin]; [by symmetry in Heq|done]. }
      case_decide as Hseen.
      * rewrite IH. by apply decide_ext.
      * rewrite filter_cons_False by done. rewrite IH. by apply decide_ext.
Qed.

Lemma has_column_sublist other (kept dataframe : DataFrame) :
  kept `sublist_of` dataframe →
  has_column other dataframe → has_column other kept.
Proof.
  unfold has_column. intros Hsub Hall. apply Forall_forall. intros x Hx.
  apply (proj1 (Forall_forall _ _) Hall). by apply (elem_of_sublist kept).
Qed.

Lemma drop_duplicates_defined (dataframe : DataFrame) :
  has_column column dataframe →
  drop_duplicates column dataframe
  = Some (keep_first column [] dataframe).
Proof. intros Hcol. unfold drop_duplicates. by rewrite decide_True. Qed.

Lemma drop_duplicates_again (dataframe : DataFrame) :
  has_column column dataframe →
  NoDup ((λ x : value * row, x.2 !! column) <$> dataframe) →
  drop_duplicates column dataframe = Some dataframe.
Proof.
  intros Hcol Hnd. rewrite drop_duplicates_defined by done. f_equal.
  apply keep_first_id; [done|]. intros x _. apply not_elem_of_nil.
Qed.
End first_wins.

(** The scenario of the specification: five submissions, one repeated
    registration number, one repeated name, three records left. *)
Example submissions_collapse :
  map fst <$> Legacy.deduplicate submissions
  = Some [VInt 0; VInt 2; VInt 4].
Proof. by vm_compute. Qed.

(** C3.  In both pipelines, running the duplicate removal on its own output
    gives that output back. *)
Theorem deduplicate_idempotent (legacy newer : DataFrame) :
  has_column "oLevelNumber" legacy →
  has_column "name" legacy →
  has_column "full_name" newer →
  (∃ result, Legacy.deduplicate legacy = Some result ∧
             Legacy.deduplicate result = Some result) ∧
  (∃ result, Newer.deduplicate newer = Some result ∧
             Newer.deduplicate result = Some result).
Proof.
  intros Hnumber Hname Hfull. split.
  - set (once := keep_first "oLevelNumber" [] legacy).
    set (twice := keep_first "name" [] once).
    assert (Hsub1 : once `sublist_of` legacy) by apply keep_first_sublist.
    assert (Hsub2 : twice `sublist_of` once) by apply keep_first_sublist.
    assert (Hname1 : has_column "name" once)
      by by apply (has_column_sublist _ _ legacy).
    assert (Hnumber2 : has_column "oLevelNumber" twice).
    { apply (has_column_sublist _ _ once); [done|].
      by apply (has_column_sublist _ _ legacy). }
    assert (Hname2 : has_column "name" twice)
      by by apply (has_column_sublist _ _ once).
    exists twice. unfold Legacy.deduplicate.
    rewrite (drop_duplicates_defined _ _ Hnumber). cbn [mbind option_bind].
    fold once. rewrite (drop_duplicates_defined _ _ Hname1). fold twice.
    split; [done|].
    rewrite (drop_duplicates_again "oLevelNumber" twice Hnumber2).
    + cbn [mbind option_bind].
      apply drop_duplicates_again; [done|apply keep_first_NoDup].
    + apply (sublist_NoDup _
        ((λ x : value * row, x.2 !! "oLevelNumber") <$> once)).
      * apply keep_first_NoDup.
      * by apply fmap_sublist.
  - exists (keep_first "full_name" [] newer). unfold Newer.deduplicate.
    rewrite (drop_duplicates_defined _ _ Hfull). split; [done|].
    apply drop_duplicates_again; [|apply keep_first_NoDup].
    apply (has_column_sublist _ _ newer); [apply keep_first_sublist|done].
Qed.

Lemma deduplicate_idempotent_witness :
  (∃ result, Legacy.deduplicate submissions = Some result ∧
             Legacy.deduplicate result = Some result) ∧
  (∃ result, Newer.deduplicate entrants = Some result ∧
             Newer.deduplicate result = Some result).
Proof.
  apply (deduplicate_idempotent submissions entrants); compute_done.
Defined.

(** C4, as the code has it.  The registration-number pass treats an empty
    registration number like any other: of the records that have it empty,
    the pass retains the first and drops the others. *)
Theorem blank_number_first_only (dataframe : DataFrame) :
  has_column "oLevelNumber" dataframe →
  ∃ result,
    drop_duplicates "oLevelNumber" dataframe = Some result ∧
    filter blank_number result = take 1 (filter blank_number dataframe).
Proof.
  intros Hnumber. eexists. split; [by apply drop_duplicates_defined|].
  exact (keep_first_of_key "oLevelNumber" [] dataframe (Some VNaN)).
Qed.

Lemma blank_number_first_only_witness :
  ∃ result,
    drop_duplicates "oLevelNumber" unnumbered = Some result ∧
    filter blank_number result = take 1 (filter blank_number unnumbered).
Proof. apply (blank_number_first_only unnumbered). compute_done. Defined.

(** Two different applicants without a registration number: the pass drops
    the second. *)
Lemma blank_number_dropped :
  ∃ x y result,
    unnumbered = [x; y] ∧ x.2 ≠ y.2 ∧
    blank_number x ∧ blank_number y ∧
    drop_duplicates "oLevelNumber" unnumbered = Some result ∧
    y ∉ result.
Proof.
  eexists _, _, _. split; [reflexivity|].
  split; [|split; [|split; [|split]]].
  - intros Heq. apply (f_equal (λ r : row, r !! "name")) in Heq.
    vm_compute in Heq. discriminate.
  - reflexivity.
  - reflexivity.
  - reflexivity.
  - intros Hin. apply list_elem_of_singleton in Hin. discriminate.
Qed.

(** *** Text *)

Lemma string_app_assoc (a b c : string) : (a +:+ b) +:+ c = a +:+ b +:+ c.
Proof.
  induction a as [|x a IH]; rewrite ?app_empty, ?app_cons; [done|].
  by f_equal.
Qed.

Lemma no_space_app (a b : string) :
  no_space (a +:+ b) = no_space a && no_space b.
Proof.
  induction a as [|x a IH]; rewrite ?app_empty, ?app_cons; [done|].
  cbn [no_space]. rewrite IH. by rewrite andb_assoc.
Qed.

Lemma space_isspace c : Ascii.eqb c " " = true → isspace c = true.
Proof. intros Hc. apply Ascii.eqb_eq in Hc. by subst c. Qed.

Lemma not_space c : isspace c = false → Ascii.eqb c " " = false.
Proof.
  intros Hc. destruct (Ascii.eqb c " ") eqn:Heq; [|done].
  apply space_isspace in Heq. congruence.
Qed.

Lemma split_from_words (current s : string) :
  no_space current = true → Forall word (split_from current s).
Proof.
  revert current. induction s as [|c rest IH]; intros current Hcurrent;
    cbn [split_from].
  - case_decide; [constructor|]. by repeat constructor.
  - destruct (isspace c) eqn:Hc.
    + case_decide; [by apply IH|]. constructor; [done|by apply IH].
    + apply IH. rewrite no_space_app, Hcurrent. cbn. by rewrite Hc.
Qed.

Lemma split_words (s : string) : Forall word (split s).
Proof. by apply split_from_words. Qed.

Lemma word_start (w : string) : word w → starts_with_space w = false.
Proof.
  intros [Hne Hw]. destruct w as [|c w]; [done|]. simpl in *.
  apply andb_prop in Hw as [Hc _]. apply not_space.
  by destruct (isspace c).
Qed.

Lemma no_space_no_double (w : string) :
  no_space w = true → double_space w = false.
Proof.
  induction w as [|c w IH]; [done|]. cbn [no_space double_space].
  intros Hw. apply andb_prop in Hw as [Hc Hw].
  destruct w as [|b w]; [done|].
  rewrite (not_space c) by (by destruct (isspace c)).
  by rewrite (IH Hw).
Qed.

(** A spaceless text, one space and a tidy text make a tidy text. *)
Lemma glue_no_double (w t : string) :
  no_space w = true → starts_with_space t = false →
  double_space t = false →
  double_space (w +:+ " " +:+ t) = false.
Proof.
  intros Hw Hstart Ht. induction w as [|c w IH].
  - rewrite app_empty, app_cons, app_empty.
    destruct t as [|b t]; [done|].
    change (double_space (String " " (String b t)))
      with ((Ascii.eqb " " " " && Ascii.eqb b " ")
            || double_space (String b t)).
    change (Ascii.eqb b " " = false) in Hstart.
    by rewrite Hstart, Ht.
  - cbn [no_space] in Hw. apply andb_prop in Hw as [Hc Hw].
    specialize (IH Hw). rewrite app_cons.
    destruct (w +:+ " " +:+ t) as [|b u]; [done|].
    change (double_space (String c (String b u)))
      with ((Ascii.eqb c " " && Ascii.eqb b " ")
            || double_space (String b u)).
    rewrite (not_space c) by (by destruct (isspace c)). by rewrite IH.
Qed.

Lemma join_words (words : list string) :
  Forall word words →
  double_space (join " " words) = false ∧
  starts_with_space (join " " words) = false.
Proof.
  induction 1 as [|w rest Hw Hrest [IHd IHs]]; [done|].
  destruct rest as [|w' rest].
  - cbn [join]. split; [apply no_space_no_double, Hw|by apply word_start].
  - change (join " " (w :: w' :: rest))
      with (w +:+ " " +:+ join " " (w' :: rest)).
    split; [apply glue_no_double; [apply Hw|done|done]|].
    destruct Hw as [Hne Hw]. destruct w as [|c w]; [done|].
    cbn in *. apply andb_prop in Hw as [Hc _]. apply not_space.
    by destruct (isspace c).
Qed.

Lemma join_app (sep : string) (front back : list string) :
  front ≠ [] → back ≠ [] →
  join sep (front ++ back) = join sep front +:+ sep +:+ join sep back.
Proof.
  intros Hfront Hback. induction front as [|w front IH]; [done|].
  destruct front as [|w' front].
  - destruct back as [|b back]; [done|]. reflexivity.
  - change (join sep ((w :: w' :: front) ++ back))
      with (w +:+ sep +:+ join sep ((w' :: front) ++ back)).
    rewrite IH by done.
    change (join sep (w :: w' :: front))
      with (w +:+ sep +:+ join sep (w' :: front)).
    by rewrite !string_app_assoc.
Qed.

Lemma collapse_parts (s : string) : collapse s ≠ "" → split s ≠ [].
Proof. unfold collapse. intros Hne Hnil. by rewrite Hnil in Hne. Qed.

Example normalized_john_doe : normalized "  john   Doe " = "JOHN DOE".
Proof. reflexivity. Qed.

(** Three names that are not blank, once collapsed and set one space
    apart, have no two spaces in a row. *)
Lemma full_name_single_spaced (a b c : string) :
  collapse a ≠ "" → collapse b ≠ "" → collapse c ≠ "" →
  double_space (collapse a +:+ " " +:+ collapse b +:+ " " +:+ collapse c)
  = false.
Proof.
  intros Ha%collapse_parts Hb%collapse_parts Hc%collapse_parts.
  unfold collapse.
  rewrite <- (join_app " " (split b) (split c)) by done.
  rewrite <- (join_app " " (split a)); [|done|].
  - apply join_words. rewrite !Forall_app.
    split; [|split]; apply split_words.
  - intros Hnil. apply app_eq_nil in Hnil as [Hnil _]. done.
Qed.

(** *** Cleaning the name columns *)

Lemma is_text_cell (cell : option value) :
  is_text cell → ∃ s, cell = Some (VStr s).
Proof. destruct cell as [[s| |]|]; try done. by exists s. Qed.

Section one_text_column.
Variable column : string.
Variable f : string → string.

Lemma apply_text_closed (dataframe : DataFrame) :
  has_text column dataframe →
  apply_text column f dataframe = Some (map (retext column f) dataframe).
Proof.
  unfold apply_text, has_text. intros Hall. apply mapM_Some_2.
  induction Hall as [|x rest Hx _ IH]; [constructor|].
  rewrite map_cons. constructor; [|exact IH].
  apply is_text_cell in Hx as [s Hs]. unfold retext, text_of.
  by rewrite Hs.
Qed.

Lemma retext_labels (dataframe : DataFrame) :
  (map (retext column f) dataframe).*1 = dataframe.*1.
Proof.
  induction dataframe as [|x rest IH]; [done|].
  rewrite map_cons, !fmap_cons. by rewrite IH.
Qed.

Lemma retext_has_text other (dataframe : DataFrame) :
  has_text other dataframe →
  has_text other (map (retext column f) dataframe).
Proof.
  unfold has_text. intros Hall.
  induction Hall as [|x rest Hx _ IH]; [constructor|].
  rewrite map_cons. constructor; [|exact IH].
  unfold retext. cbn [snd].
  destruct (decide (column = other)) as [->|Hne].
  - by rewrite lookup_insert_eq.
  - by rewrite lookup_insert_ne.
Qed.

Lemma retext_lacks_column other (dataframe : DataFrame) :
  column ≠ other →
  lacks_column other dataframe →
  lacks_column other (map (retext column f) dataframe).
Proof.
  unfold lacks_column. intros Hne Hall.
  induction Hall as [|x rest Hx _ IH]; [constructor|].
  rewrite map_cons. constructor; [|exact IH].
  unfold retext. cbn [snd]. by rewrite lookup_insert_ne.
Qed.
End one_text_column.

Lemma normalize_names_closed (dataframe : DataFrame) :
  has_text "first_name" dataframe →
  has_text "second_name" dataframe →
  has_text "surname" dataframe →
  Newer.normalize_names dataframe = Some (map name_row dataframe).
Proof.
  intros Hfirst Hsecond Hsurname. unfold Newer.normalize_names.
  rewrite apply_text_closed by done. cbn [mbind option_bind].
  rewrite apply_text_closed by by apply retext_has_text.
  cbn [mbind option_bind].
  rewrite apply_text_closed by by do 2 apply retext_has_text.
  cbn [mbind option_bind].
  rewrite apply_text_closed by by do 3 apply retext_has_text.
  cbn [mbind option_bind].
  rewrite apply_text_closed by by do 4 apply retext_has_text.
  cbn [mbind option_bind].
  rewrite apply_text_closed by by do 5 apply retext_has_text.
  by rewrite !map_map.
Qed.

Lemma name_row_labels (dataframe : DataFrame) :
  (map name_row dataframe).*1 = dataframe.*1.
Proof.
  induction dataframe as [|x rest IH]; [done|].
  rewrite map_cons, !fmap_cons. by rewrite IH.
Qed.

(** The name cells of a cleaned row. *)
Lemma name_row_cells index (r : row) first second last :
  r !! "first_name" = Some (VStr first) →
  r !! "second_name" = Some (VStr second) →
  r !! "surname" = Some (VStr last) →
  ∃ r', name_row (index, r) = (index, r') ∧
        r' !! "first_name" = Some (VStr (normalized first)) ∧
        r' !! "second_name" = Some (VStr (normalized second)) ∧
        r' !! "surname" = Some (VStr (normalized last)) ∧
        r' !! "full_name" = r !! "full_name".
Proof.
  intros Hfirst Hsecond Hlast. eexists. split; [reflexivity|].
  unfold retext, text_of, normalized. cbn [fst snd].
  repeat (rewrite ?lookup_insert_eq;
          rewrite ?lookup_insert_ne by done).
  rewrite Hfirst, Hsecond, Hlast. done.
Qed.

Lemma fullname_blind (r : row) v :
  Newer.fullname (<["full_name":=v]> r) = Newer.fullname r.
Proof. unfold Newer.fullname. by rewrite !lookup_insert_ne. Qed.

Lemma insert_column_new column v (dataframe : DataFrame) :
  lacks_column column dataframe →
  insert_column column v dataframe = Some (assign_column column v dataframe).
Proof.
  unfold insert_column, lacks_column. intros Hnone.
  rewrite decide_False; [done|]. intros Hsome.
  apply Exists_exists in Hsome as (x & Hx & [w Hw]).
  rewrite (proj1 (Forall_forall _ _) Hnone x Hx) in Hw. done.
Qed.

Lemma name_row_lacks_full_name (dataframe : DataFrame) :
  lacks_column "full_name" dataframe →
  lacks_column "full_name" (map name_row dataframe).
Proof.
  unfold lacks_column. intros Hnone.
  induction Hnone as [|x rest Hx _ IH]; [constructor|].
  rewrite map_cons. constructor; [|exact IH].
  unfold name_row, retext. cbn [fst snd]. by rewrite !lookup_insert_ne.
Qed.

Lemma name_row_fullname (dataframe : DataFrame) :
  has_text "first_name" dataframe →
  has_text "second_name" dataframe →
  has_text "surname" dataframe →
  Forall (λ x, is_Some (Newer.fullname x.2)) (map name_row dataframe).
Proof.
  intros Hfirst Hsecond Hsurname. apply Forall_forall. intros y Hy.
  apply list_elem_of_fmap in Hy as ([index r] & -> & Hx).
  destruct (is_text_cell _ (proj1 (Forall_forall _ _) Hfirst _ Hx))
    as [first Hf].
  destruct (is_text_cell _ (proj1 (Forall_forall _ _) Hsecond _ Hx))
    as [second Hs].
  destruct (is_text_cell _ (proj1 (Forall_forall _ _) Hsurname _ Hx))
    as [last Hl].
  cbn [snd] in Hf, Hs, Hl.
  destruct (name_row_cells index r _ _ _ Hf Hs Hl)
    as (r' & -> & Hf' & Hs' & Hl' & _).
  cbn [snd]. unfold Newer.fullname. by rewrite Hf', Hs', Hl'.
Qed.

(** C8, as the code has it.  On a frame with distinct row labels, the full
    name of every record is its normalized first name, second name and
    surname set one space apart; when none of the three is blank, the full
    name has no two spaces in a row. *)
Theorem full_name_of_parts (dataframe : DataFrame) :
  NoDup dataframe.*1 →
  has_text "first_name" dataframe →
  has_text "second_name" dataframe →
  has_text "surname" dataframe →
  lacks_column "full_name" dataframe →
  ∃ result,
    Newer.named dataframe = Some result ∧
    ∀ (i : nat) index r first second last,
      dataframe !! i = Some (index, r) →
      r !! "first_name" = Some (VStr first) →
      r !! "second_name" = Some (VStr second) →
      r !! "surname" = Some (VStr last) →
      ∃ r', result !! i = Some (index, r') ∧
            r' !! "full_name"
            = Some (VStr (normalized first +:+ " " +:+ normalized second
                          +:+ " " +:+ normalized last)) ∧
            (normalized first ≠ "" → normalized second ≠ "" →
             normalized last ≠ "" →
             double_space (normalized first +:+ " " +:+ normalized second
                           +:+ " " +:+ normalized last) = false).
Proof.
  intros Hnd Hfirst Hsecond Hsurname Hnone. unfold Newer.named.
  rewrite normalize_names_closed by done. cbn [mbind option_bind].
  unfold Newer.create_full_name.
  rewrite insert_column_new by by apply name_row_lacks_full_name.
  cbn [mbind option_bind].
  rewrite (fill_column_unique "full_name" Newer.fullname);
    [|apply fullname_blind|by rewrite name_row_labels
     |by apply name_row_fullname].
  eexists. split; [reflexivity|].
  intros i index r first second last Hi Hf Hs Hl.
  rewrite !map_lookup_row, Hi. cbn [fmap option_fmap option_map].
  destruct (name_row_cells index r _ _ _ Hf Hs Hl)
    as (r' & -> & Hf' & Hs' & Hl' & _).
  cbn [fst snd]. eexists. split; [reflexivity|].
  rewrite lookup_insert_eq. unfold Newer.fullname.
  rewrite Hf', Hs', Hl'. cbn [mbind option_bind].
  split; [done|]. apply full_name_single_spaced.
Qed.

Lemma full_name_of_parts_witness :
  ∃ result r',
    Newer.named sample_names = Some result ∧
    result !! 0%nat = Some (VInt 0, r') ∧
    r' !! "full_name" = Some (VStr "JOHN PETER DOE") ∧
    double_space "JOHN PETER DOE" = false.
Proof.
  destruct (full_name_of_parts sample_names)
    as (result & Hrun & Hrows).
  - compute_done.
  - compute_done.
  - compute_done.
  - compute_done.
  - compute_done.
  - destruct (Hrows 0%nat (VInt 0) _ "  john" " peter " "Doe "
                eq_refl eq_refl eq_refl eq_refl)
      as (r' & Hrow & Hname & Hsingle).
    exists result, r'.
    split; [exact Hrun|]. split; [exact Hrow|]. split; [exact Hname|].
    apply Hsingle; compute_done.
Defined.

(** A middle name of one space is blank once normalized, and leaves two
    spaces in a row in the full name. *)
Lemma full_name_double_space :
  sample_names !! 1%nat = Some (VInt 1, person "Asha" " " "Juma") ∧
  normalized " " = "" ∧
  (result ← Newer.named sample_names;
   x ← result !! 1%nat;
   x.2 !! "full_name") = Some (VStr "ASHA  JUMA") ∧
  double_space "ASHA  JUMA" = true.
Proof.
  split; [reflexivity|]. split; [reflexivity|].
  split; [by vm_compute|reflexivity].
Qed.

(** *** More on dropping duplicates *)

Section repeats_and_keeps.
Variable column : string.




End repeats_and_keeps.

Section first_wins_more.
Variable column : string.

Lemma keep_first_represents seen (dataframe : DataFrame) x :
  x ∈ dataframe →
  x.2 !! column ∈ seen ∨
  ∃ y, y ∈ keep_first column seen dataframe ∧ y.2 !! column = x.2 !! column.
Proof.
  revert seen. induction dataframe as [|z rest IH]; intros seen;
    cbn [keep_first].
  - intros Hx. by apply elem_of_nil in Hx.
  - intros [->|Hx]%elem_of_cons.
    + case_decide as Hseen; [by left|].
      right. exists z. split; [apply elem_of_cons; by left|done].
    + destruct (IH (z.2 !! column :: seen) Hx) as [Hin|(y & Hy & Hkey)].
      * apply elem_of_cons in Hin as [Heq|Hin]; [|by left].
        case_decide as Hseen; [left; by rewrite Heq|].
        right. exists z. split; [apply elem_of_cons; by left|done].
      * right. exists y. split; [|done].
        case_decide; [done|]. apply elem_of_cons. by right.
Qed.

Lemma keep_first_keeps seen (above below : DataFrame) x :
  x.2 !! column ∉ seen →
  (∀ y, y ∈ above → y.2 !! column ≠ x.2 !! column) →
  x ∈ keep_first column seen (above ++ x :: below).
Proof.
  revert seen. induction above as [|z above IH]; intros seen Hseen Habove.
  - cbn [app keep_first]. rewrite decide_False by done.
    apply elem_of_cons. by left.
  - cbn [app keep_first].
    assert (Hx : x ∈ keep_first column (z.2 !! column :: seen)
                       (above ++ x :: below)).
    { apply IH.
      - apply not_elem_of_cons. split; [|done].
        intros Heq. apply (Habove z); [apply elem_of_cons; by left|done].
      - intros y Hy. apply Habove, elem_of_cons. by right. }
    case_decide; [done|]. apply elem_of_cons. by right.
Qed.
End first_wins_more.

(** X1.  [drop_duplicates] on a column the frame has keeps the rows in
    their order, leaves no two rows with the same cell in that column,
    still has a row for every cell of the input, and keeps every row whose
    cell occurs in no row above it. *)
Theorem drop_duplicates_first_wins column (dataframe : DataFrame) :
  has_column column dataframe →
  ∃ kept,
    drop_duplicates column dataframe = Some kept ∧
    kept `sublist_of` dataframe ∧
    NoDup ((λ x : value * row, x.2 !! column) <$> kept) ∧
    (∀ x, x ∈ dataframe →
          ∃ y, y ∈ kept ∧ y.2 !! column = x.2 !! column) ∧
    (∀ above x below,
       dataframe = above ++ x :: below →
       (∀ y, y ∈ above → y.2 !! column ≠ x.2 !! column) →
       x ∈ kept).
Proof.
  intros Hcol. exists (keep_first column [] dataframe).
  split; [by apply drop_duplicates_defined|].
  split; [apply keep_first_sublist|].
  split; [apply keep_first_NoDup|]. split.
  - intros x Hx.
    destruct (keep_first_represents column [] dataframe x Hx) as [Hin|Hy];
      [by apply elem_of_nil in Hin|done].
  - intros above x below -> Habove.
    apply keep_first_keeps; [apply not_elem_of_nil|done].
Qed.

Lemma drop_duplicates_first_wins_witness :
  ∃ kept,
    drop_duplicates "name" submissions = Some kept ∧
    kept `sublist_of` submissions ∧
    NoDup ((λ x : value * row, x.2 !! "name") <$> kept) ∧
    (∀ x, x ∈ submissions →
          ∃ y, y ∈ kept ∧ y.2 !! "name" = x.2 !! "name") ∧
    (∀ above x below,
       submissions = above ++ x :: below →
       (∀ y, y ∈ above → y.2 !! "name" ≠ x.2 !! "name") →
       x ∈ kept).
Proof. apply (drop_duplicates_first_wins "name" submissions). compute_done. Defined.

(** X2.  After the two passes of the legacy [read_data_file] the records
    left are records of the input in their order, and no two of them share
    a registration number or a name. *)
Theorem legacy_deduplicate_unique (dataframe : DataFrame) :
  has_column "oLevelNumber" dataframe →
  has_column "name" dataframe →
  ∃ result,
    Legacy.deduplicate dataframe = Some result ∧
    result `sublist_of` dataframe ∧
    NoDup ((λ x : value * row, x.2 !! "oLevelNumber") <$> result) ∧
    NoDup ((λ x : value * row, x.2 !! "name") <$> result).
Proof.
  intros Hnumber Hname.
  set (once := keep_first "oLevelNumber" [] dataframe).
  assert (Hsub1 : once `sublist_of` dataframe) by apply keep_first_sublist.
  assert (Hname1 : has_column "name" once)
    by by apply (has_column_sublist _ _ dataframe).
  exists (keep_first "name" [] once). unfold Legacy.deduplicate.
  rewrite (drop_duplicates_defined _ _ Hnumber). cbn [mbind option_bind].
  fold once. rewrite (drop_duplicates_defined _ _ Hname1).
  split; [done|]. split; [|split].
  - transitivity once; [apply keep_first_sublist|done].
  - apply (sublist_NoDup _
      ((λ x : value * row, x.2 !! "oLevelNumber") <$> once)).
    + apply keep_first_NoDup.
    + apply fmap_sublist, keep_first_sublist.
  - apply keep_first_NoDup.
Qed.

Lemma legacy_deduplicate_unique_witness :
  ∃ result,
    Legacy.deduplicate submissions = Some result ∧
    result `sublist_of` submissions ∧
    NoDup ((λ x : value * row, x.2 !! "oLevelNumber") <$> result) ∧
    NoDup ((λ x : value * row, x.2 !! "name") <$> result).
Proof. apply (legacy_deduplicate_unique submissions); compute_done. Defined.



(** *** The two eligibility rules side by side *)

(** X4.  [credit_c] and [credit_d] answer "Yes" or "No" and nothing
    else, a score [credit_c] accepts is accepted by [credit_d], and "D" is
    the one score on which they differ. *)
Theorem credit_c_stricter (score : value) :
  (Legacy.credit_c score = "Yes" ∨ Legacy.credit_c score = "No") ∧
  (Legacy.credit_d score = "Yes" ∨ Legacy.credit_d score = "No") ∧
  (Legacy.credit_c score = "Yes" → Legacy.credit_d score = "Yes") ∧
  (Legacy.credit_d score = "Yes" ∧ Legacy.credit_c score = "No"
   ↔ score = VStr "D").
Proof.
  unfold Legacy.credit_c, Legacy.credit_d. cbv zeta.
  destruct (decide (score ∈ [VStr "A"; VStr "B"; VStr "C"])) as [Hc|Hc];
  destruct (decide (score ∈ [VStr "A"; VStr "B"; VStr "C"; VStr "D"]))
    as [Hd|Hd].
  - split; [by left|]. split; [by left|]. split; [done|].
    split; [by intros [_ ?]|]. intros ->. revert Hc. compute_done.
  - exfalso. apply Hd.
    rewrite !elem_of_cons in Hc. rewrite !elem_of_cons. tauto.
  - split; [by right|]. split; [by left|]. split; [done|].
    split; [|done]. intros _.
    rewrite !elem_of_cons in Hc. rewrite !elem_of_cons in Hd. tauto.
  - split; [by right|]. split; [by right|]. split; [done|].
    split; [by intros [? _]|]. intros ->. exfalso. apply Hd. compute_done.
Qed.

Lemma strict_rule_uniform (r : row) : strict_rule r → uniform_rule r.
Proof.
  assert (Hwider : ∀ column, grade_in credit_or_above column r →
                             grade_in pass_or_above column r).
  { intros column (s & Hs & Hin). exists s. split; [done|].
    unfold credit_or_above in Hin. unfold pass_or_above.
    rewrite !elem_of_cons in Hin. rewrite !elem_of_cons. tauto. }
  intros (Hb & Hc & Hp & _ & _). repeat split; auto.
Qed.

Lemma legacy_yes_strict (r : row) :
  Legacy.qualify r = Some (Some (VStr "Yes")) → strict_rule r.
Proof.
  unfold Legacy.qualify, strict_rule.
  destruct (r !! "course") as [course|] eqn:Hcourse; [|done].
  cbn [mbind option_bind]. case_decide; [|done].
  destruct (r !! "biology") as [b|] eqn:Hb; [|done].
  destruct (r !! "chemistry") as [c|] eqn:Hc; [|done].
  destruct (r !! "physics") as [p|] eqn:Hp; [|done].
  destruct (r !! "maths") as [m|] eqn:Hm; [|done].
  destruct (r !! "english") as [e|] eqn:He; [|done].
  cbn [mbind option_bind].
  destruct (credit_c_grade r _ _ Hb) as [[-> Gb]|[-> Gb]];
  destruct (credit_c_grade r _ _ Hc) as [[-> Gc]|[-> Gc]];
  destruct (credit_d_grade r _ _ Hp) as [[-> Gp]|[-> Gp]];
  destruct (credit_d_grade r _ _ Hm) as [[-> Gm]|[-> Gm]];
  destruct (credit_d_grade r _ _ He) as [[-> Ge]|[-> Ge]];
  try done.
Qed.

(** X5.  On a frame with distinct row labels, a record the legacy
    evaluator marks "Yes" is marked "Yes" by the newer evaluator too. *)
Theorem legacy_yes_newer_yes (dataframe : DataFrame) :
  NoDup dataframe.*1 →
  has_columns legacy_consulted dataframe →
  ∃ older newer,
    Legacy.check_qualification dataframe = Some older ∧
    Newer.check_qualification dataframe = Some newer ∧
    ∀ (i : nat) index r,
      older !! i = Some (index, r) →
      r !! "Qualify" = Some (VStr "Yes") →
      ∃ r', newer !! i = Some (index, r') ∧
            r' !! "Qualify" = Some (VStr "Yes").
Proof.
  intros Hnd Hcols.
  assert (Hnewer : has_columns newer_consulted dataframe).
  { unfold has_columns in *. apply Forall_forall. intros c Hc.
    apply (proj1 (Forall_forall _ _) Hcols).
    repeat (apply elem_of_cons in Hc as [->|Hc]; [compute_done|]).
    by apply elem_of_nil in Hc. }
  rewrite (legacy_check_qualification_unique _ Hnd Hcols).
  rewrite (newer_check_qualification_unique _ Hnd Hnewer).
  eexists _, _. split; [reflexivity|]. split; [reflexivity|].
  intros i index r. rewrite !map_lookup_row.
  destruct (dataframe !! i) as [[index' r0]|] eqn:Hi; [|done].
  cbn [fmap option_fmap option_map fst snd]. intros [= -> <-].
  rewrite lookup_insert_eq. intros Hyes.
  eexists. split; [reflexivity|]. rewrite lookup_insert_eq.
  assert (Hrule : strict_rule r0).
  { apply legacy_yes_strict.
    destruct (Legacy.qualify r0) as [[v|]|]; by simplify_eq. }
  assert (Hrow : ∀ c, c ∈ newer_consulted → is_Some (r0 !! c)).
  { intros c Hc.
    apply (has_columns_row _ dataframe (index, r0) c Hnewer); [|done].
    by apply list_elem_of_lookup_2 with i. }
  destruct (newer_qualify_rule r0 Hrow) as [Hnew _].
  by rewrite (Hnew (strict_rule_uniform _ Hrule)).
Qed.

Lemma legacy_yes_newer_yes_witness :
  ∃ older newer,
    Legacy.check_qualification sample_applicants = Some older ∧
    Newer.check_qualification sample_applicants = Some newer ∧
    ∀ (i : nat) index r,
      older !! i = Some (index, r) →
      r !! "Qualify" = Some (VStr "Yes") →
      ∃ r', newer !! i = Some (index, r') ∧
            r' !! "Qualify" = Some (VStr "Yes").
Proof. apply (legacy_yes_newer_yes sample_applicants); compute_done. Defined.

(** *** The Qualify column is written, never read *)

Lemma same_but_untouched column (before after : DataFrame) :
  same_but column before after → untouched_outside column before after.
Proof.
  intros Hsame. split; [by apply same_but_length in Hsame|].
  intros i index r Hi. by apply (same_but_lookup _ _ _ _ _ _ Hsame).
Qed.

Lemma assign_column_untouched column v (before after : DataFrame) :
  untouched_outside column before after →
  assign_column column v after = assign_column column v before.
Proof.
  intros [Hlen Hrows]. apply list_eq. intros i. unfold assign_column.
  rewrite !map_lookup_row.
  destruct (before !! i) as [[index r]|] eqn:Hi.
  - destruct (Hrows i index r Hi) as (r' & -> & Hsame).
    cbn [fmap option_fmap option_map fst snd]. do 2 f_equal.
    apply map_eq. intros c. destruct (decide (column = c)) as [->|Hne].
    + by rewrite !lookup_insert_eq.
    + rewrite !lookup_insert_ne by done. apply Hsame. congruence.
  - apply lookup_ge_None in Hi. rewrite <- Hlen in Hi.
    apply lookup_ge_None in Hi. by rewrite Hi.
Qed.

Lemma iterrows_store_same_but column cell (pending dataframe result : DataFrame) :
  iterrows (store column cell) pending dataframe = Some result →
  same_but column dataframe result.
Proof.
  revert dataframe.
  induction pending as [|[index r] rest IH]; intros dataframe;
    cbn [iterrows].
  - intros [= ->]. apply same_but_refl.
  - destruct (store column cell index r dataframe) as [next|] eqn:Hstore;
      [|done].
    cbn [mbind option_bind]. intros Hrun%IH.
    eapply same_but_trans; [|exact Hrun].
    unfold store in Hstore.
    destruct (cell r) as [[v|]|]; cbn [mbind option_bind] in Hstore;
      [| |done]; injection Hstore as <-;
      [apply same_but_set_value|apply same_but_refl].
Qed.

Lemma fill_column_fresh column cell blank (before after : DataFrame) :
  untouched_outside column before after →
  iterrows (store column cell) (assign_column column blank after)
           (assign_column column blank after)
  = iterrows (store column cell) (assign_column column blank before)
             (assign_column column blank before).
Proof. intros Hsame. by rewrite (assign_column_untouched _ _ _ _ Hsame). Qed.

Lemma fill_column_twice column cell blank (dataframe result : DataFrame) :
  iterrows (store column cell) (assign_column column blank dataframe)
           (assign_column column blank dataframe) = Some result →
  iterrows (store column cell) (assign_column column blank result)
           (assign_column column blank result) = Some result.
Proof.
  intros Hrun. rewrite (fill_column_fresh _ _ _ dataframe result); [done|].
  apply same_but_untouched.
  eapply same_but_trans; [apply same_but_assign_column|].
  by apply iterrows_store_same_but in Hrun.
Qed.

(** X6.  Neither evaluator reads the Qualify column: two frames that
    differ in that column only are evaluated alike, failure included, and
    evaluating the result once more returns it unchanged. *)
Theorem check_qualification_fresh (before after : DataFrame) :
  untouched_outside "Qualify" before after →
  (Legacy.check_qualification after = Legacy.check_qualification before ∧
   Newer.check_qualification after = Newer.check_qualification before) ∧
  (Legacy.check_qualification before ≫= Legacy.check_qualification
   = Legacy.check_qualification before ∧
   Newer.check_qualification before ≫= Newer.check_qualification
   = Newer.check_qualification before).
Proof.
  intros Hsame. split.
  - split; by apply fill_column_fresh.
  - split.
    + destruct (Legacy.check_qualification before) as [result|] eqn:Hrun;
        [|done].
      cbn [mbind option_bind]. by apply fill_column_twice in Hrun.
    + destruct (Newer.check_qualification before) as [result|] eqn:Hrun;
        [|done].
      cbn [mbind option_bind]. by apply fill_column_twice in Hrun.
Qed.

Lemma check_qualification_fresh_witness :
  (Legacy.check_qualification
     (assign_column "Qualify" (VStr "Yes") sample_applicants)
   = Legacy.check_qualification sample_applicants ∧
   Newer.check_qualification
     (assign_column "Qualify" (VStr "Yes") sample_applicants)
   = Newer.check_qualification sample_applicants) ∧
  (Legacy.check_qualification sample_applicants
     ≫= Legacy.check_qualification
   = Legacy.check_qualification sample_applicants ∧
   Newer.check_qualification sample_applicants
     ≫= Newer.check_qualification
   = Newer.check_qualification sample_applicants).
Proof.
  apply (check_qualification_fresh sample_applicants
           (assign_column "Qualify" (VStr "Yes") sample_applicants)).
  apply same_but_untouched, same_but_assign_column.
Defined.

(** *** More on dates and ages *)

Lemma digit_range c n : digit c = Some n → 0 ≤ n ≤ 9.
Proof.
  unfold digit. cbv zeta.
  destruct ((48 <=? nat_of_ascii c)%nat && (nat_of_ascii c <=? 57)%nat)
    eqn:Hc; [|done].
  apply andb_prop in Hc as [Hlow Hhigh].
  apply Nat.leb_le in Hlow, Hhigh. intros [= <-]. lia.
Qed.

Lemma read_year_range s y rest :
  read_year s = Some (y, rest) → 0 ≤ y ≤ 9999.
Proof.
  unfold read_year.
  destruct s as [|a [|b [|c [|d s]]]]; try done.
  destruct (digit a) as [na|] eqn:Ha; [|done].
  destruct (digit b) as [nb|] eqn:Hb; [|done].
  destruct (digit c) as [nc|] eqn:Hc; [|done].
  destruct (digit d) as [nd|] eqn:Hd; [|done].
  cbn [mbind option_bind]. intros [= <- _].
  apply digit_range in Ha, Hb, Hc, Hd. lia.
Qed.

(** Whatever text [strptime] accepts, the date it returns is a date of the
    calendar: year 1 to 9999, month 1 to 12, and a day the month has in that
    year. *)
Lemma strptime_calendar (born : string) (birth : date) :
  strptime born = Some birth → calendar birth.
Proof.
  unfold strptime.
  destruct (read_year born) as [[y rest]|] eqn:Hy; [|done].
  cbn [mbind option_bind].
  destruct (expect "-" rest) as [rest1|]; [|done]. cbn [mbind option_bind].
  destruct (read_month rest1) as [[m rest2]|]; [|done].
  cbn [mbind option_bind].
  destruct (expect "-" rest2) as [rest3|]; [|done]. cbn [mbind option_bind].
  destruct (read_day rest3) as [[d rest4]|]; [|done].
  cbn [mbind option_bind].
  case_decide; [|done].
  destruct ((1 <=? y) && (1 <=? m) && (m <=? 12) && (1 <=? d)
            && (d <=? days_in_month y m)) eqn:Hvalid; [|done].
  intros [= <-]. apply read_year_range in Hy.
  unfold calendar. cbn [year month day]. lia.
Qed.

Lemma strptime_calendar_witness : calendar (Date 2000 2 29).
Proof. apply (strptime_calendar "2000-02-29"). reflexivity. Defined.

Lemma strptime_isoformat_witness :
  strptime (isoformat (Date 1999 7 4)) = Some (Date 1999 7 4).
Proof.
  apply (strptime_isoformat (Date 1999 7 4)).
  unfold calendar. cbn. lia.
Defined.

Lemma pair_lt_iff (a b : Z * Z) :
  pair_lt a b = true ↔ a.1 < b.1 ∨ (a.1 = b.1 ∧ a.2 < b.2).
Proof. unfold pair_lt. lia. Qed.

(** X9.  For a birth date text that [strptime] accepts, the age does not
    go down as the current date moves on. *)
Theorem calculate_age_monotone (sooner later : date) (born : string) :
  is_Some (strptime born) →
  not_later sooner later →
  ∃ younger older,
    calculate_age sooner born = Some younger ∧
    calculate_age later born = Some older ∧
    younger ≤ older.
Proof.
  intros [birth Hparse] Horder.
  rewrite !(calculate_age_parsed _ _ _ Hparse).
  eexists _, _. split; [reflexivity|]. split; [reflexivity|].
  pose proof (pair_lt_iff (month sooner, day sooner)
                          (month birth, day birth)) as Hs.
  pose proof (pair_lt_iff (month later, day later)
                          (month birth, day birth)) as Hl.
  cbn [fst snd] in Hs, Hl. unfold not_later in Horder.
  destruct (pair_lt (month sooner, day sooner) (month birth, day birth));
  destruct (pair_lt (month later, day later) (month birth, day birth));
    lia.
Qed.

Lemma calculate_age_monotone_witness :
  ∃ younger older,
    calculate_age (Date 2018 7 23) "1999-07-24" = Some younger ∧
    calculate_age (Date 2018 7 24) "1999-07-24" = Some older ∧
    younger ≤ older.
Proof.
  apply (calculate_age_monotone (Date 2018 7 23) (Date 2018 7 24)).
  - by eexists.
  - unfold not_later. cbn. lia.
Defined.

(** X10.  For a birth date text that [strptime] accepts, the age on the
    same month and day [n] years later is [n], and the day before that it is
    [n - 1]. *)
Theorem calculate_age_anniversary (born : string) (birth : date) (n : Z) :
  strptime born = Some birth →
  calculate_age (Date (year birth + n) (month birth) (day birth)) born
  = Some n ∧
  (1 < day birth →
   calculate_age (Date (year birth + n) (month birth) (day birth - 1)) born
   = Some (n - 1)).
Proof.
  intros Hparse. rewrite !(calculate_age_parsed _ _ _ Hparse).
  cbn [year month day]. split.
  - replace (pair_lt _ _) with false by (unfold pair_lt; cbn; lia).
    f_equal. lia.
  - intros Hday.
    replace (pair_lt _ _) with true by (unfold pair_lt; cbn; lia).
    f_equal. lia.
Qed.

Lemma calculate_age_anniversary_witness :
  calculate_age (Date 2017 7 24) "1999-07-24" = Some 18 ∧
  (1 < 24 → calculate_age (Date 2017 7 23) "1999-07-24" = Some 17).
Proof.
  apply (calculate_age_anniversary "1999-07-24" (Date 1999 7 24) 18).
  reflexivity.
Defined.

(** *** More on normalized names *)

Lemma upper_char_idem c : upper_char (upper_char c) = upper_char c.
Proof. by destruct c as [[] [] [] [] [] [] [] []]. Qed.

Lemma upper_char_isspace c : isspace (upper_char c) = isspace c.
Proof. by destruct c as [[] [] [] [] [] [] [] []]. Qed.

Lemma upper_char_not_lower c :
  ((97 <=? nat_of_ascii (upper_char c))%nat
   && (nat_of_ascii (upper_char c) <=? 122)%nat) = false.
Proof. by destruct c as [[] [] [] [] [] [] [] []]. Qed.

Lemma upper_idem (s : string) : upper (upper s) = upper s.
Proof.
  induction s as [|c s IH]; [done|]. cbn [upper].
  by rewrite upper_char_idem, IH.
Qed.

Lemma upper_app (a b : string) : upper (a +:+ b) = upper a +:+ upper b.
Proof.
  induction a as [|c a IH]; [done|].
  rewrite app_cons. cbn [upper]. by rewrite IH, app_cons.
Qed.

Lemma upper_empty (s : string) : upper s = "" ↔ s = "".
Proof. by destruct s. Qed.

Lemma upper_no_lower (s : string) : has_lower (upper s) = false.
Proof.
  induction s as [|c s IH]; [done|]. cbn [upper has_lower].
  by rewrite upper_char_not_lower, IH.
Qed.

Lemma upper_split_from (current s : string) :
  split_from (upper current) (upper s) = upper <$> split_from current s.
Proof.
  revert current. induction s as [|c s IH]; intros current;
    cbn [upper split_from].
  - destruct (decide (current = "")) as [->|Hne]; [done|].
    rewrite decide_False by (by rewrite upper_empty). done.
  - rewrite upper_char_isspace. destruct (isspace c).
    + destruct (decide (current = "")) as [->|Hne].
      * cbn [upper]. rewrite decide_True by done. apply (IH "").
      * rewrite decide_False by (by rewrite upper_empty).
        rewrite fmap_cons. f_equal. apply (IH "").
    + rewrite <- IH. by rewrite upper_app.
Qed.

Lemma upper_split (s : string) : split (upper s) = upper <$> split s.
Proof. apply (upper_split_from "" s). Qed.

Lemma upper_join (parts : list string) :
  upper (join " " parts) = join " " (upper <$> parts).
Proof.
  induction parts as [|w rest IH]; [done|].
  destruct rest as [|w' rest]; [done|].
  change (join " " (w :: w' :: rest))
    with (w +:+ " " +:+ join " " (w' :: rest)).
  rewrite !upper_app, IH. done.
Qed.

Lemma app_empty_r (s : string) : s +:+ "" = s.
Proof. induction s as [|c s IH]; [done|]. by rewrite app_cons, IH. Qed.

Lemma split_from_word (current w rest : string) :
  no_space w = true →
  split_from current (w +:+ rest) = split_from (current +:+ w) rest.
Proof.
  revert current. induction w as [|c w IH]; intros current Hw.
  - by rewrite app_empty, app_empty_r.
  - cbn [no_space] in Hw. apply andb_prop in Hw as [Hc Hw].
    rewrite app_cons. cbn [split_from].
    destruct (isspace c); [done|]. rewrite (IH _ Hw).
    by rewrite string_app_assoc, app_cons, app_empty.
Qed.

Lemma split_join (words : list string) :
  Forall word words → split (join " " words) = words.
Proof.
  unfold split. induction 1 as [|w rest [Hne Hw] Hrest IH]; [done|].
  destruct rest as [|w' rest].
  - cbn [join]. rewrite <- (app_empty_r w) at 1.
    rewrite (split_from_word _ _ _ Hw), app_empty. cbn [split_from].
    by rewrite decide_False.
  - change (join " " (w :: w' :: rest))
      with (w +:+ " " +:+ join " " (w' :: rest)).
    rewrite (split_from_word _ _ _ Hw), app_empty, app_cons, app_empty.
    cbn [split_from]. change (isspace " ") with true. cbv iota.
    rewrite decide_False by done. by rewrite IH.
Qed.

Lemma collapse_idem (s : string) : collapse (collapse s) = collapse s.
Proof. unfold collapse. by rewrite split_join by apply split_words. Qed.

Lemma ends_with_space_app (a b : string) :
  b ≠ "" → ends_with_space (a +:+ b) = ends_with_space b.
Proof.
  intros Hb. induction a as [|c a IH]; [done|].
  rewrite app_cons. cbn [ends_with_space].
  destruct (a +:+ b) as [|c' rest] eqn:Hrest; [|done].
  destruct a; [by rewrite app_empty in Hrest|by rewrite app_cons in Hrest].
Qed.

Lemma word_end (w : string) : word w → ends_with_space w = false.
Proof.
  intros [Hne Hw]. induction w as [|c w IH]; [done|].
  cbn [no_space] in Hw. apply andb_prop in Hw as [Hc Hw].
  cbn [ends_with_space]. destruct w as [|c' w].
  - apply not_space. by destruct (isspace c).
  - by apply IH.
Qed.

Lemma join_words_end (words : list string) :
  Forall word words → ends_with_space (join " " words) = false.
Proof.
  induction 1 as [|w rest Hw Hrest IH]; [done|].
  destruct rest as [|w' rest]; [by apply word_end|].
  change (join " " (w :: w' :: rest))
    with (w +:+ " " +:+ join " " (w' :: rest)).
  rewrite <- string_app_assoc. rewrite ends_with_space_app; [done|].
  apply Forall_inv in Hrest as [Hne _].
  destruct rest; [done|]. by destruct w'.
Qed.

(** X11.  A name that went through [upper] and the split-and-join of
    [read_data_file] is left alone by a second pass, and it has no letter
    a-z, no two spaces in a row, no space in front and none at the end; its
    words are the words of the uppercased name. *)
Theorem normalized_tidy (name : string) :
  normalized (normalized name) = normalized name ∧
  has_lower (normalized name) = false ∧
  double_space (normalized name) = false ∧
  starts_with_space (normalized name) = false ∧
  ends_with_space (normalized name) = false ∧
  split (normalized name) = split (upper name).
Proof.
  unfold normalized, collapse.
  pose proof (split_words (upper name)) as Hwords.
  split; [|split; [|split; [|split; [|split]]]].
  - rewrite upper_join, <- upper_split, upper_idem.
    by rewrite split_join.
  - rewrite <- (upper_idem name), upper_split, <- upper_join.
    apply upper_no_lower.
  - by apply join_words.
  - by apply join_words.
  - by apply join_words_end.
  - by apply split_join.
Qed.

(** *** Where the clean-up of names stops *)

Lemma apply_text_refused column f (dataframe : DataFrame) :
  ¬ has_text column dataframe → apply_text column f dataframe = None.
Proof.
  unfold has_text, apply_text. intros Hnot. apply mapM_None_2.
  apply not_Forall_Exists in Hnot; [|apply _].
  eapply Exists_impl; [exact Hnot|]. intros x Hx. cbn in Hx.
  by destruct (x.2 !! column) as [[s| |]|].
Qed.

Lemma retext_has_text_inv column f other (dataframe : DataFrame) :
  column ≠ other →
  has_text other (map (retext column f) dataframe) →
  has_text other dataframe.
Proof.
  unfold has_text. intros Hne Hall. apply Forall_forall. intros x Hx.
  assert (Hin : retext column f x ∈ map (retext column f) dataframe)
    by (apply list_elem_of_fmap; by exists x).
  pose proof (proj1 (Forall_forall _ _) Hall _ Hin) as Htext.
  unfold retext in Htext. cbn [snd] in Htext.
  by rewrite lookup_insert_ne in Htext.
Qed.

Lemma normalize_names_refused (dataframe : DataFrame) column :
  column ∈ ["first_name"; "second_name"; "surname"] →
  ¬ has_text column dataframe →
  Newer.normalize_names dataframe = None.
Proof.
  intros Hcolumn Hnot. unfold Newer.normalize_names.
  destruct (decide (has_text "first_name" dataframe)) as [Hfirst|Hfirst];
    [|by rewrite apply_text_refused].
  rewrite apply_text_closed by done. cbn [mbind option_bind].
  destruct (decide (has_text "second_name" dataframe)) as [Hsecond|Hsecond].
  2:{ rewrite apply_text_refused; [done|].
      intros Htext. by apply retext_has_text_inv in Htext. }
  rewrite apply_text_closed by by apply retext_has_text.
  cbn [mbind option_bind].
  destruct (decide (has_text "surname" dataframe)) as [Hlast|Hlast].
  2:{ rewrite apply_text_refused; [done|].
      intros Htext. by do 2 apply retext_has_text_inv in Htext. }
  exfalso.
  repeat (apply elem_of_cons in Hcolumn as [->|Hcolumn]; [done|]).
  by apply elem_of_nil in Hcolumn.
Qed.

(** X12.  A name cell that is not text stops the run: the legacy
    [read_data_file] raises when some name is not text, and the newer name
    clean-up raises when some first name, second name or surname is not
    text. *)
Theorem names_must_be_text (today : date) (older newer : DataFrame) column :
  ¬ has_text "name" older →
  column ∈ ["first_name"; "second_name"; "surname"] →
  ¬ has_text column newer →
  Legacy.read_data_file today older = None ∧
  Newer.normalize_names newer = None ∧
  Newer.loaded newer = None.
Proof.
  intros Hname Hcolumn Hnot. split; [|split].
  - unfold Legacy.read_data_file. by rewrite apply_text_refused.
  - by apply (normalize_names_refused _ column).
  - unfold Newer.loaded, Newer.named.
    by rewrite (normalize_names_refused _ column).
Qed.

Lemma names_must_be_text_witness :
  Legacy.read_data_file (Date 2018 7 23) no_name = None ∧
  Newer.normalize_names no_middle_name = None ∧
  Newer.loaded no_middle_name = None.
Proof.
  apply (names_must_be_text (Date 2018 7 23) no_name no_middle_name
           "second_name"); compute_done.
Defined.

Lemma iterrows_store_has_column column cell (pending dataframe result : DataFrame) :
  has_column column dataframe →
  iterrows (store column cell) pending dataframe = Some result →
  has_column column result.
Proof.
  revert dataframe.
  induction pending as [|[index r] rest IH]; intros dataframe Hcol;
    cbn [iterrows].
  - by intros [= <-].
  - destruct (store column cell index r dataframe) as [next|] eqn:Hstore;
      [|done].
    cbn [mbind option_bind]. apply IH.
    unfold store in Hstore.
    destruct (cell r) as [[v|]|]; cbn [mbind option_bind] in Hstore;
      [| |done]; injection Hstore as <-; [|done].
    unfold has_column, set_value in *. apply Forall_forall. intros y Hy.
    apply list_elem_of_fmap in Hy as (x & -> & Hx).
    case_decide; [cbn [snd]; by rewrite lookup_insert_eq|].
    by apply (proj1 (Forall_forall _ _) Hcol).
Qed.

Lemma assign_column_has_column column v (dataframe : DataFrame) :
  has_column column (assign_column column v dataframe).
Proof.
  unfold has_column, assign_column. apply Forall_forall. intros y Hy.
  apply list_elem_of_fmap in Hy as (x & -> & Hx). cbn [snd].
  by rewrite lookup_insert_eq.
Qed.

(** X13.  [create_full_name] cannot be run on its own result: on a
    frame with at least one record, the second run is refused because the
    full-name column is already there. *)
Theorem create_full_name_once (dataframe result : DataFrame) :
  dataframe ≠ [] →
  Newer.create_full_name dataframe = Some result →
  Newer.create_full_name result = None.
Proof.
  intros Hrows. unfold Newer.create_full_name at 1.
  destruct (insert_column "full_name" (VStr "") dataframe) as [fresh|]
    eqn:Hinsert; [|done].
  cbn [mbind option_bind]. intros Hrun.
  unfold insert_column in Hinsert. case_decide; [done|].
  injection Hinsert as <-.
  assert (Hcol : has_column "full_name" result).
  { apply (iterrows_store_has_column _ _ _ _ _ (assign_column_has_column _ _ _)
             Hrun). }
  apply iterrows_store_same_but, same_but_length in Hrun.
  unfold assign_column in Hrun. rewrite length_map in Hrun.
  destruct result as [|y rest]; [by destruct dataframe|].
  unfold Newer.create_full_name, insert_column.
  rewrite decide_True; [done|]. apply Exists_cons_hd.
  by apply Forall_inv in Hcol.
Qed.

Lemma create_full_name_once_witness :
  is_Some (Newer.create_full_name sample_names) ∧
  Newer.create_full_name sample_names ≫= Newer.create_full_name = None.
Proof.
  split; [compute_done|].
  destruct (Newer.create_full_name sample_names) as [result|] eqn:Hrun;
    [|done].
  cbn [mbind option_bind].
  by apply (create_full_name_once sample_names result).
Defined.

(** *** The summary sheet *)

Section two_way.
Context {A : Type} (P1 P2 : A → Prop).
Context `{!∀ x, Decision (P1 x), !∀ x, Decision (P2 x)}.
Hypothesis apart : ∀ x, P1 x → P2 x → False.

Lemma two_way_count (l : list A) :
  (length (filter P1 l) + length (filter P2 l)
   + length (filter (λ x, ¬ P1 x ∧ ¬ P2 x) l) = length l)%nat.
Proof.
  induction l as [|x l IH]; [done|].
  rewrite !filter_cons.
  destruct (decide (P1 x)) as [Hx1|Hx1];
  destruct (decide (P2 x)) as [Hx2|Hx2];
  try (exfalso; eauto; fail);
  (destruct (decide (¬ P1 x ∧ ¬ P2 x)) as [Hn|Hn];
   [try (exfalso; tauto)|try (exfalso; tauto)]);
  cbn [length]; lia.
Qed.

Lemma two_way_all (l : list A) :
  (length (filter P1 l) + length (filter P2 l) = length l)%nat
  ↔ Forall (λ x, P1 x ∨ P2 x) l.
Proof.
  pose proof (two_way_count l) as Hcount.
  destruct (filter (λ x, ¬ P1 x ∧ ¬ P2 x) l) as [|y rest] eqn:Hnone.
  - split; [intros _|cbn [length] in Hcount; lia].
    apply Forall_forall. intros x Hx.
    destruct (decide (P1 x)) as [|Hx1]; [by left|].
    destruct (decide (P2 x)) as [|Hx2]; [by right|].
    assert (Hin : x ∈ filter (λ x, ¬ P1 x ∧ ¬ P2 x) l)
      by by apply list_elem_of_filter.
    rewrite Hnone in Hin. by apply elem_of_nil in Hin.
  - split; [cbn [length] in Hcount; lia|].
    intros Hall. exfalso.
    assert (Hin : y ∈ filter (λ x, ¬ P1 x ∧ ¬ P2 x) l)
      by (rewrite Hnone; apply elem_of_cons; by left).
    apply list_elem_of_filter in Hin as [[Hy1 Hy2] Hy].
    destruct (proj1 (Forall_forall _ _) Hall y Hy); tauto.
Qed.
End two_way.

(** One line of the summary: the count is the size of the group, and the
    two gender counts fill it exactly when no other answer occurs. *)
Lemma summary_row_counts (group : DataFrame) :
  has_column "gender" group →
  ∃ line,
    summary_row group = Some line ∧
    Count line = length group ∧
    (Males line + Females line ≤ Count line)%nat ∧
    ((Males line + Females line = Count line)%nat ↔
     Forall (λ x : value * row,
               x.2 !! "gender" = Some (VStr "Male") ∨
               x.2 !! "gender" = Some (VStr "Female")) group).
Proof.
  intros Hgender. unfold summary_row, count_eq.
  rewrite !decide_True by done. cbn [mbind option_bind].
  eexists. split; [reflexivity|]. cbn [Count Males Females].
  assert (Hapart : ∀ x : value * row,
    x.2 !! "gender" = Some (VStr "Male") →
    x.2 !! "gender" = Some (VStr "Female") → False) by (intros x; congruence).
  split; [done|]. split.
  - pose proof (two_way_count
      (λ x : value * row, x.2 !! "gender" = Some (VStr "Male"))
      (λ x : value * row, x.2 !! "gender" = Some (VStr "Female"))
      Hapart group) as Hcount.
    cbv beta in Hcount. lia.
  - apply (two_way_all
      (λ x : value * row, x.2 !! "gender" = Some (VStr "Male"))
      (λ x : value * row, x.2 !! "gender" = Some (VStr "Female"))
      Hapart group).
Qed.

(** X14.  The summary sheet of the legacy [run] has the lines CACO, rCO,
    HIS and Total in this order; each course line counts its group, the
    Total line is the sum of the three in every column, and in no line do
    males and females add up to more than the count. *)
Theorem legacy_summary_totals (ca_co_upgrading resident_co his : DataFrame) :
  has_column "gender" ca_co_upgrading →
  has_column "gender" resident_co →
  has_column "gender" his →
  ∃ CACO rCO HIS Total,
    Legacy.summary (ca_co_upgrading, resident_co, his)
    = Some [("CACO", CACO); ("rCO", rCO); ("HIS", HIS); ("Total", Total)] ∧
    Count CACO = length ca_co_upgrading ∧
    Count rCO = length resident_co ∧
    Count HIS = length his ∧
    (Count Total = Count CACO + Count rCO + Count HIS)%nat ∧
    (Males Total = Males CACO + Males rCO + Males HIS)%nat ∧
    (Females Total = Females CACO + Females rCO + Females HIS)%nat ∧
    Forall (λ line, (Males line + Females line ≤ Count line)%nat)
           [CACO; rCO; HIS; Total].
Proof.
  intros H0 H1 H2.
  destruct (summary_row_counts _ H0) as (CACO & E0 & C0 & L0 & _).
  destruct (summary_row_counts _ H1) as (rCO & E1 & C1 & L1 & _).
  destruct (summary_row_counts _ H2) as (HIS & E2 & C2 & L2 & _).
  unfold Legacy.summary. rewrite E0, E1, E2. cbn [mbind option_bind].
  eexists CACO, rCO, HIS, _. split; [reflexivity|].
  cbn [column_sums foldr snd Count Males Females].
  repeat (split; [first [done | lia]|]).
  repeat constructor; cbn [Count Males Females]; lia.
Qed.

Lemma legacy_summary_totals_witness :
  ∃ CACO rCO HIS Total,
    Legacy.summary (polled, [], polled)
    = Some [("CACO", CACO); ("rCO", rCO); ("HIS", HIS); ("Total", Total)] ∧
    Count CACO = length polled ∧
    Count rCO = length (@nil (value * row)) ∧
    Count HIS = length polled ∧
    (Count Total = Count CACO + Count rCO + Count HIS)%nat ∧
    (Males Total = Males CACO + Males rCO + Males HIS)%nat ∧
    (Females Total = Females CACO + Females rCO + Females HIS)%nat ∧
    Forall (λ line, (Males line + Females line ≤ Count line)%nat)
           [CACO; rCO; HIS; Total].
Proof. apply (legacy_summary_totals polled [] polled); compute_done. Defined.

(** X15.  The summary sheet of the newer [run] has one line, whose count
    is the number of records; males and females add up to at most that
    count, and to exactly that count when every gender cell reads "Male" or
    "Female", in this spelling. *)
Theorem newer_summary_counts (dataframe : DataFrame) :
  has_column "gender" dataframe →
  ∃ line,
    Newer.summary dataframe = Some [("Candidates", line)] ∧
    Count line = length dataframe ∧
    (Males line + Females line ≤ Count line)%nat ∧
    ((Males line + Females line = Count line)%nat ↔
     Forall (λ x : value * row,
               x.2 !! "gender" = Some (VStr "Male") ∨
               x.2 !! "gender" = Some (VStr "Female")) dataframe).
Proof.
  intros Hgender.
  destruct (summary_row_counts _ Hgender) as (line & Hline & Hrest).
  exists line. split; [|done].
  unfold summary_row in Hline. unfold Newer.summary.
  destruct (count_eq "gender" "Male" dataframe) as [m|]; [|done].
  destruct (count_eq "gender" "Female" dataframe) as [f|]; [|done].
  cbn [mbind option_bind] in *. by injection Hline as <-.
Qed.

Lemma newer_summary_counts_witness :
  ∃ line,
    Newer.summary polled = Some [("Candidates", line)] ∧
    Count line = length polled ∧
    (Males line + Females line ≤ Count line)%nat ∧
    ((Males line + Females line = Count line)%nat ↔
     Forall (λ x : value * row,
               x.2 !! "gender" = Some (VStr "Male") ∨
               x.2 !! "gender" = Some (VStr "Female")) polled).
Proof. apply (newer_summary_counts polled). compute_done. Defined.

(** *** The legacy [read_data_file] as a whole *)

Section cells.
Variable c : string.
Variable Q : option value → Prop.

Lemma cells_retext column f (dataframe : DataFrame) :
  column ≠ c →
  Forall (λ x : value * row, Q (x.2 !! c)) dataframe →
  Forall (λ x : value * row, Q (x.2 !! c)) (map (retext column f) dataframe).
Proof.
  intros Hne Hall. apply Forall_forall. intros y Hy.
  apply list_elem_of_fmap in Hy as (x & -> & Hx).
  unfold retext. cbn [snd]. rewrite lookup_insert_ne by done.
  by apply (proj1 (Forall_forall _ _) Hall).
Qed.

Lemma cells_with_age today (dataframe : DataFrame) :
  c ≠ "age_calc" →
  Forall (λ x : value * row, Q (x.2 !! c)) dataframe →
  Forall (λ x : value * row, Q (x.2 !! c)) (map (with_age today) dataframe).
Proof.
  intros Hne Hall. apply Forall_forall. intros y Hy.
  apply list_elem_of_fmap in Hy as (x & -> & Hx).
  unfold with_age. cbn [snd]. rewrite lookup_insert_ne by done.
  by apply (proj1 (Forall_forall _ _) Hall).
Qed.

Lemma cells_sublist (kept dataframe : DataFrame) :
  kept `sublist_of` dataframe →
  Forall (λ x : value * row, Q (x.2 !! c)) dataframe →
  Forall (λ x : value * row, Q (x.2 !! c)) kept.
Proof.
  intros Hsub Hall. apply Forall_forall. intros x Hx.
  apply (proj1 (Forall_forall _ _) Hall). by apply (elem_of_sublist kept).
Qed.
End cells.

Lemma valid_births_retext column f (dataframe : DataFrame) :
  column ≠ "birthDate" →
  valid_births dataframe → valid_births (map (retext column f) dataframe).
Proof.
  exact (cells_retext "birthDate"
           (λ cell, match cell with
                    | Some (VStr born) => is_Some (strptime born)
                    | _ => False
                    end) column f dataframe).
Qed.

Lemma valid_births_sublist (kept dataframe : DataFrame) :
  kept `sublist_of` dataframe →
  valid_births dataframe → valid_births kept.
Proof.
  exact (cells_sublist "birthDate"
           (λ cell, match cell with
                    | Some (VStr born) => is_Some (strptime born)
                    | _ => False
                    end) kept dataframe).
Qed.

Lemma has_text_has_column column (dataframe : DataFrame) :
  has_text column dataframe → has_column column dataframe.
Proof.
  unfold has_text, has_column. intros Hall.
  eapply Forall_impl; [exact Hall|]. intros x Hx. cbn in Hx.
  by destruct (x.2 !! column) as [[]|].
Qed.

Lemma sublist_of_map {A B} (f : A → B) (l : list B) (k : list A) :
  l `sublist_of` map f k → ∃ k', k' `sublist_of` k ∧ l = map f k'.
Proof.
  revert l. induction k as [|x k IH]; intros l Hsub.
  - apply sublist_nil_r in Hsub as ->. by exists [].
  - cbn [map] in Hsub. apply sublist_cons_r in Hsub as [Hsub|(l' & -> & Hsub)].
    + destruct (IH _ Hsub) as (k' & Hk' & ->).
      exists k'. split; [by apply sublist_cons|done].
    + destruct (IH _ Hsub) as (k' & Hk' & ->).
      exists (x :: k'). split; [by apply sublist_skip|done].
Qed.

Lemma insert_age_closed today (dataframe : DataFrame) :
  valid_births dataframe →
  lacks_column "age_calc" dataframe →
  Legacy.insert_age today dataframe = Some (map (with_age today) dataframe).
Proof.
  intros Hvalid Hnone. unfold Legacy.insert_age.
  assert (Hages : mapM (λ x : value * row,
                          born ← x.2 !! "birthDate";
                          match born with
                          | VStr born => calculate_age today born
                          | _ => None
                          end) dataframe
                  = Some (map (age_of today) dataframe)).
  { apply mapM_Some_2. unfold valid_births in Hvalid. clear Hnone.
    induction Hvalid as [|x rest Hx _ IH]; [constructor|].
    rewrite map_cons. constructor; [|exact IH].
    unfold age_of. destruct (x.2 !! "birthDate") as [[born| |]|]; try done.
    cbn [mbind option_bind]. destruct Hx as [birth Hbirth].
    by rewrite (calculate_age_parsed _ _ _ Hbirth). }
  rewrite Hages. cbn [mbind option_bind].
  rewrite decide_False.
  - f_equal. change (map (age_of today) dataframe)
      with (age_of today <$> dataframe).
    rewrite zip_with_fmap_r, zip_with_diag. done.
  - intros Hsome. apply Exists_exists in Hsome as (x & Hx & [w Hw]).
    unfold lacks_column in Hnone.
    rewrite (proj1 (Forall_forall _ _) Hnone x Hx) in Hw. done.
Qed.

#[local] Instance text_le_total column : Total (text_le column).
Proof. intros x y. unfold text_le. apply String.le_total. Qed.

(** The frame the legacy [read_data_file] returns, step by step. *)
Lemma read_data_file_closed today (dataframe : DataFrame) :
  has_text "name" dataframe →
  has_column "oLevelNumber" dataframe →
  valid_births dataframe →
  lacks_column "age_calc" dataframe →
  Legacy.read_data_file today dataframe
  = Some (sort_values "name"
            (map (with_age today)
               (keep_first "name" []
                  (keep_first "oLevelNumber" []
                     (map (retext "name" collapse)
                        (map (retext "name" upper) dataframe)))))).
Proof.
  intros Hname Hnumber Hvalid Hnone. unfold Legacy.read_data_file.
  rewrite apply_text_closed by done. cbn [mbind option_bind].
  rewrite apply_text_closed by by apply retext_has_text.
  cbn [mbind option_bind].
  set (clean := map (retext "name" collapse)
                  (map (retext "name" upper) dataframe)).
  assert (Hname2 : has_text "name" clean) by by do 2 apply retext_has_text.
  assert (Hnumber2 : has_column "oLevelNumber" clean)
    by by do 2 (apply (cells_retext "oLevelNumber" is_Some); [done|]).
  assert (Hvalid2 : valid_births clean)
    by by do 2 (apply valid_births_retext; [done|]).
  assert (Hnone2 : lacks_column "age_calc" clean)
    by by do 2 (apply retext_lacks_column; [done|]).
  rewrite (drop_duplicates_defined _ _ Hnumber2). cbn [mbind option_bind].
  set (once := keep_first "oLevelNumber" [] clean).
  assert (Hsub1 : once `sublist_of` clean) by apply keep_first_sublist.
  rewrite drop_duplicates_defined
    by (apply has_text_has_column;
        by apply (cells_sublist "name" is_text _ clean)).
  cbn [mbind option_bind].
  set (twice := keep_first "name" [] once).
  assert (Hsub2 : twice `sublist_of` clean)
    by (transitivity once; [apply keep_first_sublist|done]).
  rewrite insert_age_closed; [done| |].
  - by apply (valid_births_sublist _ clean).
  - by apply (cells_sublist "age_calc" (λ cell, cell = None) _ clean).
Qed.

Lemma read_row_cells today (x : value * row) :
  (read_row today x).1 = x.1 ∧
  (∀ c, c ≠ "name" → c ≠ "age_calc" →
        (read_row today x).2 !! c = x.2 !! c) ∧
  (∀ name, x.2 !! "name" = Some (VStr name) →
           (read_row today x).2 !! "name" = Some (VStr (normalized name))) ∧
  (∀ born age, x.2 !! "birthDate" = Some (VStr born) →
               calculate_age today born = Some age →
               (read_row today x).2 !! "age_calc" = Some (VInt age)).
Proof.
  unfold read_row, with_age, retext, age_of, text_of, normalized.
  cbn [fst snd]. split; [done|]. split; [|split].
  - intros c Hname Hage. by rewrite !lookup_insert_ne.
  - intros name Hx. rewrite lookup_insert_ne by done.
    rewrite !lookup_insert_eq. by rewrite Hx.
  - intros born age Hborn Hage. rewrite lookup_insert_eq.
    rewrite !lookup_insert_ne by done. by rewrite Hborn, Hage.
Qed.

Lemma with_age_cells today column (dataframe : DataFrame) :
  column ≠ "age_calc" →
  (λ x : value * row, x.2 !! column) <$> map (with_age today) dataframe
  = (λ x : value * row, x.2 !! column) <$> dataframe.
Proof.
  intros Hne. induction dataframe as [|x rest IH]; [done|].
  rewrite map_cons, !fmap_cons, IH. f_equal.
  unfold with_age. cbn [snd]. by rewrite lookup_insert_ne.
Qed.

(** X16.  On a frame with text names, registration numbers, birth dates
    that [strptime] accepts and no age column yet, the legacy
    [read_data_file] returns records of the input, each with its name
    normalized and its age added and nothing else changed, in ascending
    order of name, no two with the same name or the same registration
    number. *)
Theorem read_data_file_result today (dataframe : DataFrame) :
  has_text "name" dataframe →
  has_column "oLevelNumber" dataframe →
  valid_births dataframe →
  lacks_column "age_calc" dataframe →
  ∃ result kept,
    Legacy.read_data_file today dataframe = Some result ∧
    kept `sublist_of` dataframe ∧
    result ≡ₚ map (read_row today) kept ∧
    Sorted (text_le "name") result ∧
    NoDup ((λ x : value * row, x.2 !! "name") <$> result) ∧
    NoDup ((λ x : value * row, x.2 !! "oLevelNumber") <$> result) ∧
    ∀ x,
      (read_row today x).1 = x.1 ∧
      (∀ c, c ≠ "name" → c ≠ "age_calc" →
            (read_row today x).2 !! c = x.2 !! c) ∧
      (∀ name, x.2 !! "name" = Some (VStr name) →
               (read_row today x).2 !! "name"
               = Some (VStr (normalized name))) ∧
      (∀ born age, x.2 !! "birthDate" = Some (VStr born) →
                   calculate_age today born = Some age →
                   (read_row today x).2 !! "age_calc" = Some (VInt age)).
Proof.
  intros Hname Hnumber Hvalid Hnone.
  rewrite (read_data_file_closed _ _ Hname Hnumber Hvalid Hnone).
  rewrite (map_map (retext "name" upper) (retext "name" collapse)).
  set (clean := map _ dataframe).
  set (once := keep_first "oLevelNumber" [] clean).
  set (twice := keep_first "name" [] once).
  assert (Hsub : twice `sublist_of` clean).
  { transitivity once; apply keep_first_sublist. }
  destruct (sublist_of_map _ _ _ Hsub) as (kept & Hkept & Htwice).
  assert (Hperm : sort_values "name" (map (with_age today) twice)
                  ≡ₚ map (with_age today) twice)
    by apply merge_sort_Permutation.
  eexists _, kept. split; [reflexivity|]. split; [done|].
  split; [|split; [|split; [|split]]].
  - rewrite Hperm, Htwice. by rewrite map_map.
  - apply (Sorted_merge_sort (text_le "name")).
  - rewrite Hperm, with_age_cells by done. apply keep_first_NoDup.
  - rewrite Hperm, with_age_cells by done.
    apply (sublist_NoDup _
      ((λ x : value * row, x.2 !! "oLevelNumber") <$> once)).
    + apply keep_first_NoDup.
    + apply fmap_sublist, keep_first_sublist.
  - apply read_row_cells.
Qed.

Lemma read_data_file_result_witness :
  ∃ result kept,
    Legacy.read_data_file (Date 2018 7 23) enrolments = Some result ∧
    kept `sublist_of` enrolments ∧
    result ≡ₚ map (read_row (Date 2018 7 23)) kept ∧
    Sorted (text_le "name") result ∧
    NoDup ((λ x : value * row, x.2 !! "name") <$> result) ∧
    NoDup ((λ x : value * row, x.2 !! "oLevelNumber") <$> result) ∧
    ∀ x,
      (read_row (Date 2018 7 23) x).1 = x.1 ∧
      (∀ c, c ≠ "name" → c ≠ "age_calc" →
            (read_row (Date 2018 7 23) x).2 !! c = x.2 !! c) ∧
      (∀ name, x.2 !! "name" = Some (VStr name) →
               (read_row (Date 2018 7 23) x).2 !! "name"
               = Some (VStr (normalized name))) ∧
      (∀ born age, x.2 !! "birthDate" = Some (VStr born) →
                   calculate_age (Date 2018 7 23) born = Some age →
                   (read_row (Date 2018 7 23) x).2 !! "age_calc"
                   = Some (VInt age)).
Proof.
  apply (read_data_file_result (Date 2018 7 23) enrolments); compute_done.
Defined.

(** *** The legacy [run] *)

(** X17.  The age column can be added exactly when every birth date cell
    holds a text that [strptime] accepts and the frame has no age column
    yet; otherwise the insertion raises. *)
Theorem insert_age_defined today (dataframe : DataFrame) :
  is_Some (Legacy.insert_age today dataframe)
  ↔ valid_births dataframe ∧ lacks_column "age_calc" dataframe.
Proof.
  split.
  - intros [result Hrun]. unfold Legacy.insert_age in Hrun.
    destruct (mapM _ dataframe) as [ages|] eqn:Hages; [|done].
    cbn [mbind option_bind] in Hrun. case_decide as Hsome; [done|].
    split.
    + assert (Hall : is_Some (mapM (λ x : value * row,
                          born ← x.2 !! "birthDate";
                          match born with
                          | VStr born => calculate_age today born
                          | _ => None
                          end) dataframe)) by by rewrite Hages.
      apply mapM_is_Some_1 in Hall. unfold valid_births.
      eapply Forall_impl; [exact Hall|]. intros x [age Hage]. cbn in Hage.
      destruct (x.2 !! "birthDate") as [[born| |]|]; try done.
      cbn [mbind option_bind] in Hage. unfold calculate_age in Hage.
      by destruct (strptime born).
    + unfold lacks_column. apply Forall_forall. intros x Hx.
      destruct (x.2 !! "age_calc") as [w|] eqn:Hw; [|done].
      exfalso. apply Hsome. apply Exists_exists. exists x.
      split; [done|]. by rewrite Hw.
  - intros [Hvalid Hnone]. by rewrite insert_age_closed.
Qed.

Lemma StronglySorted_sublist {A} (R : relation A) (l k : list A) :
  l `sublist_of` k → StronglySorted R k → StronglySorted R l.
Proof.
  induction 1 as [|x l k Hsub IH|x l k Hsub IH]; [done| |].
  - intros [Hk Hx]%StronglySorted_inv. constructor; [by apply IH|].
    apply Forall_forall. intros y Hy.
    apply (proj1 (Forall_forall _ _) Hx). by apply (elem_of_sublist l).
  - intros [Hk _]%StronglySorted_inv. by apply IH.
Qed.

#[local] Instance text_le_trans column : Transitive (text_le column).
Proof. intros x y z. unfold text_le. apply (transitivity (R:=String.le)). Qed.

Lemma Sorted_text_sublist column (kept dataframe : DataFrame) :
  kept `sublist_of` dataframe →
  Sorted (text_le column) dataframe → Sorted (text_le column) kept.
Proof.
  intros Hsub Hsorted. apply StronglySorted_Sorted.
  apply (StronglySorted_sublist _ _ dataframe Hsub).
  by apply Sorted_StronglySorted; [apply _|].
Qed.

(** What the legacy evaluator leaves in the rows of a frame with distinct
    labels, read off the rows it returns. *)
Lemma legacy_checked_rows (dataframe : DataFrame) :
  NoDup dataframe.*1 →
  has_columns legacy_consulted dataframe →
  ∃ result,
    Legacy.check_qualification dataframe = Some result ∧
    same_but "Qualify" dataframe result ∧
    Forall (λ x : value * row,
              (course_is Legacy.clinical_officer x →
               (strict_rule x.2 → x.2 !! "Qualify" = Some (VStr "Yes")) ∧
               (¬ strict_rule x.2 → x.2 !! "Qualify" = Some (VStr "No"))) ∧
              (¬ course_is Legacy.clinical_officer x →
               x.2 !! "Qualify" = Some (VStr ""))) result.
Proof.
  intros Hnd Hcols.
  pose proof (legacy_check_qualification_unique _ Hnd Hcols) as Hrun.
  eexists. split; [exact Hrun|]. split.
  { unfold Legacy.check_qualification in Hrun.
    eapply same_but_trans; [apply (same_but_assign_column _ _ (VStr ""))|].
    by apply iterrows_store_same_but in Hrun. }
  apply Forall_forall. intros y Hy.
  apply list_elem_of_fmap in Hy as ([index r] & -> & Hx). cbn [fst snd].
  assert (Hrow : ∀ c, c ∈ legacy_consulted → is_Some (r !! c))
    by (intros c Hc;
        by apply (has_columns_row legacy_consulted dataframe (index, r))).
  assert (Hrule : ∀ v, strict_rule (<["Qualify":=v]> r) ↔ strict_rule r).
  { intros v. unfold strict_rule, grade_in.
    by rewrite !lookup_insert_ne by done. }
  unfold course_is. cbn [snd]. rewrite lookup_insert_ne by done.
  rewrite lookup_insert_eq. split.
  - intros Hcourse.
    destruct (legacy_qualify_clinical r Hcourse Hrow) as [Hyes Hno].
    split; rewrite Hrule; intros H; [by rewrite (Hyes H)|by rewrite (Hno H)].
  - intros Hother. destruct (Hrow "course") as [course Hcourse];
      [compute_done|].
    rewrite (legacy_qualify_other r course Hcourse); [done|].
    intros ->. by apply Hother.
Qed.


Lemma read_row_labels today (kept : DataFrame) :
  (map (read_row today) kept).*1 = kept.*1.
Proof.
  induction kept as [|x rest IH]; [done|].
  rewrite map_cons, !fmap_cons. by rewrite IH.
Qed.

Lemma read_row_has_column today c (kept dataframe : DataFrame) :
  c ≠ "name" → c ≠ "age_calc" →
  kept `sublist_of` dataframe →
  has_column c dataframe →
  has_column c (map (read_row today) kept).
Proof.
  intros Hname Hage Hsub Hcol. unfold has_column.
  apply Forall_forall. intros y Hy.
  apply list_elem_of_fmap in Hy as (x & -> & Hx).
  destruct (read_row_cells today x) as (_ & Hsame & _).
  rewrite (Hsame c Hname Hage).
  apply (proj1 (Forall_forall _ _) Hcol). by apply (elem_of_sublist kept).
Qed.

Lemma same_but_has_column column c (before after : DataFrame) :
  c ≠ column →
  same_but column before after →
  has_column c before → has_column c after.
Proof.
  intros Hne Hsame. unfold has_column, same_but in *.
  induction Hsame as [|x y before after [_ Hcells] _ IH]; [done|].
  intros [Hx Hrest]%Forall_cons. constructor; [|by apply IH].
  by rewrite (Hcells c Hne).
Qed.

Lemma same_but_sorted column c (before after : DataFrame) :
  c ≠ column →
  same_but column before after →
  Sorted (text_le c) before → Sorted (text_le c) after.
Proof.
  intros Hne Hsame Hsorted.
  apply Sorted_StronglySorted in Hsorted; [|apply _].
  apply StronglySorted_Sorted.
  unfold same_but in Hsame.
  induction Hsame as [|x y before after [_ Hcells] Hrest IH];
    [constructor|].
  apply StronglySorted_inv in Hsorted as [Hsorted Hx].
  constructor; [by apply IH|].
  clear IH Hsorted. induction Hrest as [|x' y' before after [_ Hc'] _ IH];
    [constructor|].
  apply Forall_cons in Hx as [Hxx' Hx]. constructor; [|by apply IH].
  unfold text_le in *. by rewrite (Hcells c Hne), (Hc' c Hne).
Qed.

(** The frame the legacy [read_data_file] returns, as far as [run] needs
    it. *)
Lemma read_data_file_loaded today (dataframe : DataFrame) :
  has_text "name" dataframe →
  has_column "oLevelNumber" dataframe →
  valid_births dataframe →
  lacks_column "age_calc" dataframe →
  ∃ result kept,
    Legacy.read_data_file today dataframe = Some result ∧
    kept `sublist_of` dataframe ∧
    result ≡ₚ map (read_row today) kept ∧
    Sorted (text_le "name") result.
Proof.
  intros Hname Hnumber Hvalid Hnone.
  rewrite (read_data_file_closed _ _ Hname Hnumber Hvalid Hnone).
  rewrite (map_map (retext "name" upper) (retext "name" collapse)).
  set (clean := map _ dataframe).
  set (twice := keep_first "name" [] (keep_first "oLevelNumber" [] clean)).
  assert (Hsub : twice `sublist_of` clean).
  { transitivity (keep_first "oLevelNumber" [] clean);
      apply keep_first_sublist. }
  destruct (sublist_of_map _ _ _ Hsub) as (kept & Hkept & Htwice).
  eexists _, kept. split; [reflexivity|]. split; [done|]. split.
  - unfold sort_values. rewrite merge_sort_Permutation, Htwice.
    by rewrite map_map.
  - apply (Sorted_merge_sort (text_le "name")).
Qed.

(** X18.  The legacy [run], on a frame with distinct row labels that
    [read_data_file] and the evaluator accept and that has a gender column:
    the three sheets hold records of their own course in ascending order of
    name, the Clinical Officer sheet carries the verdict of the strict rule
    on every record, the other two sheets carry an empty Qualify cell, and
    the count of the Total line is the size of the three sheets together,
    never more than the number of records read. *)
Theorem run_sheets today (dataframe : DataFrame) :
  NoDup dataframe.*1 →
  has_text "name" dataframe →
  has_column "oLevelNumber" dataframe →
  valid_births dataframe →
  lacks_column "age_calc" dataframe →
  has_columns legacy_consulted dataframe →
  has_column "gender" dataframe →
  ∃ summary_df ca_co_upgrading resident_co his total,
    Legacy.run today dataframe
    = Some (summary_df, (ca_co_upgrading, resident_co, his)) ∧
    last summary_df = Some ("Total", total) ∧
    Count total
    = (length ca_co_upgrading + length resident_co + length his)%nat ∧
    (Count total ≤ length dataframe)%nat ∧
    Forall (λ x : value * row,
              course_is Legacy.upgrading x ∧
              x.2 !! "Qualify" = Some (VStr "")) ca_co_upgrading ∧
    Forall (λ x : value * row,
              course_is Legacy.clinical_officer x ∧
              (strict_rule x.2 → x.2 !! "Qualify" = Some (VStr "Yes")) ∧
              (¬ strict_rule x.2 → x.2 !! "Qualify" = Some (VStr "No")))
           resident_co ∧
    Forall (λ x : value * row,
              course_is Legacy.information_science x ∧
              x.2 !! "Qualify" = Some (VStr "")) his ∧
    Forall (Sorted (text_le "name")) [ca_co_upgrading; resident_co; his].
Proof.
  intros Hnd Hname Hnumber Hvalid Hnone Hcols Hgender.
  destruct (read_data_file_loaded today dataframe Hname Hnumber Hvalid Hnone)
    as (loaded & kept & Hread & Hkept & Hperm & Hsorted).
  assert (Hlabels : NoDup loaded.*1).
  { rewrite Hperm, read_row_labels.
    apply (sublist_NoDup _ dataframe.*1); [done|by apply fmap_sublist]. }
  assert (Hcolumn : ∀ c, c ≠ "name" → c ≠ "age_calc" →
                         has_column c dataframe → has_column c loaded).
  { intros c Hc1 Hc2 Hc. unfold has_column. rewrite Hperm.
    by apply (read_row_has_column today c kept dataframe). }
  assert (Hcols' : has_columns legacy_consulted loaded).
  { unfold has_columns in *. apply Forall_forall. intros c Hc.
    pose proof (proj1 (Forall_forall _ _) Hcols c Hc) as Hcol.
    apply Hcolumn; [| |done];
      repeat (apply elem_of_cons in Hc as [->|Hc]; [done|]);
      by apply elem_of_nil in Hc. }
  destruct (legacy_checked_rows loaded Hlabels Hcols')
    as (checked & Hcheck & Hsame & Hrows).
  assert (Hcourse : has_column "course" checked).
  { apply (same_but_has_column "Qualify" _ loaded); [done|done|].
    apply (proj1 (Forall_forall _ _) Hcols'). compute_done. }
  assert (Hgender' : has_column "gender" checked).
  { apply (same_but_has_column "Qualify" _ loaded); [done|done|].
    by apply Hcolumn. }
  assert (Hsorted' : Sorted (text_le "name") checked)
    by by apply (same_but_sorted "Qualify" _ loaded).
  set (group := λ text : string,
         filter (λ x : value * row, x.2 !! "course" = Some (VStr text))
                checked).
  assert (Hgroup : ∀ text, group text `sublist_of` checked)
    by (intros text; apply sublist_filter).
  assert (Hline : ∀ text, ∃ line,
            summary_row (group text) = Some line ∧
            Count line = length (group text)).
  { intros text.
    destruct (summary_row_counts (group text)) as (line & Hl & Hc & _).
    - by apply (cells_sublist "gender" is_Some _ checked).
    - by exists line. }
  destruct (Hline Legacy.upgrading) as (CACO & E0 & C0).
  destruct (Hline Legacy.clinical_officer) as (rCO & E1 & C1).
  destruct (Hline Legacy.information_science) as (HIS & E2 & C2).
  exists [("CACO", CACO); ("rCO", rCO); ("HIS", HIS);
          ("Total", column_sums [("CACO", CACO); ("rCO", rCO); ("HIS", HIS)])],
         (group Legacy.upgrading), (group Legacy.clinical_officer),
         (group Legacy.information_science),
         (column_sums [("CACO", CACO); ("rCO", rCO); ("HIS", HIS)]).
  split.
  { unfold Legacy.run. rewrite Hread. cbn [mbind option_bind].
    rewrite Hcheck. cbn [mbind option_bind].
    unfold Legacy.split_courses, loc_eq. rewrite !decide_True by done.
    cbn [mbind option_bind]. fold (group Legacy.upgrading).
    fold (group Legacy.clinical_officer).
    fold (group Legacy.information_science).
    unfold Legacy.summary. rewrite E0, E1, E2. done. }
  split; [reflexivity|].
  cbn [column_sums foldr snd Count Males Females].
  split; [lia|]. split.
  { assert (H12 : ∀ x, course_is Legacy.upgrading x →
                       course_is Legacy.clinical_officer x → False)
      by (intros x; by apply courses_apart).
    assert (H13 : ∀ x, course_is Legacy.upgrading x →
                       course_is Legacy.information_science x → False)
      by (intros x; by apply courses_apart).
    assert (H23 : ∀ x, course_is Legacy.clinical_officer x →
                       course_is Legacy.information_science x → False)
      by (intros x; by apply courses_apart).
    pose proof (three_way_count
      (λ x : value * row, x.2 !! "course" = Some (VStr Legacy.upgrading))
      (λ x : value * row,
         x.2 !! "course" = Some (VStr Legacy.clinical_officer))
      (λ x : value * row,
         x.2 !! "course" = Some (VStr Legacy.information_science))
      H12 H13 H23 checked) as Hcount.
    cbv beta in Hcount. fold (group Legacy.upgrading) in Hcount.
    fold (group Legacy.clinical_officer) in Hcount.
    fold (group Legacy.information_science) in Hcount.
    apply same_but_length in Hsame. apply Permutation_length in Hperm.
    rewrite length_map in Hperm. apply sublist_length in Hkept. lia. }
  assert (Hmember : ∀ text x, x ∈ group text →
            course_is text x ∧
            (course_is Legacy.clinical_officer x →
             (strict_rule x.2 → x.2 !! "Qualify" = Some (VStr "Yes")) ∧
             (¬ strict_rule x.2 → x.2 !! "Qualify" = Some (VStr "No"))) ∧
            (¬ course_is Legacy.clinical_officer x →
             x.2 !! "Qualify" = Some (VStr ""))).
  { intros text x Hx. apply list_elem_of_filter in Hx as [Hx Hin].
    split; [done|]. by apply (proj1 (Forall_forall _ _) Hrows). }
  split; [|split; [|split]].
  - apply Forall_forall. intros x Hx.
    destruct (Hmember _ _ Hx) as (Hc & _ & Hblank). split; [done|].
    apply Hblank. intros Hco.
    by apply (courses_apart Legacy.upgrading Legacy.clinical_officer x).
  - apply Forall_forall. intros x Hx.
    destruct (Hmember _ _ Hx) as (Hc & Hverdict & _). split; [done|].
    by apply Hverdict.
  - apply Forall_forall. intros x Hx.
    destruct (Hmember _ _ Hx) as (Hc & _ & Hblank). split; [done|].
    apply Hblank. intros Hco.
    by apply (courses_apart Legacy.information_science
                Legacy.clinical_officer x).
  - repeat constructor; by apply (Sorted_text_sublist _ _ checked).
Qed.

Lemma run_sheets_witness :
  ∃ summary_df ca_co_upgrading resident_co his total,
    Legacy.run (Date 2018 7 23) enrolments
    = Some (summary_df, (ca_co_upgrading, resident_co, his)) ∧
    last summary_df = Some ("Total", total) ∧
    Count total
    = (length ca_co_upgrading + length resident_co + length his)%nat ∧
    (Count total ≤ length enrolments)%nat ∧
    Forall (λ x : value * row,
              course_is Legacy.upgrading x ∧
              x.2 !! "Qualify" = Some (VStr "")) ca_co_upgrading ∧
    Forall (λ x : value * row,
              course_is Legacy.clinical_officer x ∧
              (strict_rule x.2 → x.2 !! "Qualify" = Some (VStr "Yes")) ∧
              (¬ strict_rule x.2 → x.2 !! "Qualify" = Some (VStr "No")))
           resident_co ∧
    Forall (λ x : value * row,
              course_is Legacy.information_science x ∧
              x.2 !! "Qualify" = Some (VStr "")) his ∧
    Forall (Sorted (text_le "name")) [ca_co_upgrading; resident_co; his].
Proof.
  apply (run_sheets (Date 2018 7 23) enrolments); compute_done.
Defined.


(** *** The newer [read_data_file] short of its sort *)

(** What [Newer.named] makes of a row with text in the three name columns. *)
Lemma named_closed (dataframe : DataFrame) :
  NoDup dataframe.*1 →
  has_text "first_name" dataframe →
  has_text "second_name" dataframe →
  has_text "surname" dataframe →
  lacks_column "full_name" dataframe →
  Newer.named dataframe
  = Some (map (λ x : value * row,
                 (x.1, <["full_name":=match Newer.fullname x.2 with
                                      | Some (Some v) => v
                                      | _ => VStr ""
                                      end]> x.2))
              (map name_row dataframe)).
Proof.
  intros Hnd Hfirst Hsecond Hsurname Hnone. unfold Newer.named.
  rewrite normalize_names_closed by done. cbn [mbind option_bind].
  unfold Newer.create_full_name.
  rewrite insert_column_new by by apply name_row_lacks_full_name.
  cbn [mbind option_bind].
  apply (fill_column_unique "full_name" Newer.fullname);
    [apply fullname_blind|by rewrite name_row_labels
    |by apply name_row_fullname].
Qed.

(** X19.  The newer [read_data_file], short of its sort, on a frame with
    distinct row labels and text in the three name columns: it returns
    records with distinct labels and distinct full names, each carrying the
    normalized names of one input record and the full name made of them,
    and every input record finds its full name on some record returned. *)
Theorem loaded_result (dataframe : DataFrame) :
  NoDup dataframe.*1 →
  has_text "first_name" dataframe →
  has_text "second_name" dataframe →
  has_text "surname" dataframe →
  lacks_column "full_name" dataframe →
  ∃ result,
    Newer.loaded dataframe = Some result ∧
    (length result ≤ length dataframe)%nat ∧
    NoDup result.*1 ∧
    NoDup ((λ x : value * row, x.2 !! "full_name") <$> result) ∧
    Forall (λ y : value * row,
              ∃ x first second last,
                x ∈ dataframe ∧ y.1 = x.1 ∧
                x.2 !! "first_name" = Some (VStr first) ∧
                x.2 !! "second_name" = Some (VStr second) ∧
                x.2 !! "surname" = Some (VStr last) ∧
                y.2 !! "first_name" = Some (VStr (normalized first)) ∧
                y.2 !! "second_name" = Some (VStr (normalized second)) ∧
                y.2 !! "surname" = Some (VStr (normalized last)) ∧
                y.2 !! "full_name"
                = Some (VStr (normalized first +:+ " " +:+ normalized second
                              +:+ " " +:+ normalized last))) result ∧
    (∀ x first second last,
       x ∈ dataframe →
       x.2 !! "first_name" = Some (VStr first) →
       x.2 !! "second_name" = Some (VStr second) →
       x.2 !! "surname" = Some (VStr last) →
       ∃ y, y ∈ result ∧
            y.2 !! "full_name"
            = Some (VStr (normalized first +:+ " " +:+ normalized second
                          +:+ " " +:+ normalized last))).
Proof.
  intros Hnd Hfirst Hsecond Hsurname Hnone.
  pose proof (named_closed _ Hnd Hfirst Hsecond Hsurname Hnone) as Hnamed.
  set (full := map _ (map name_row dataframe)) in Hnamed.
  assert (Hrow : ∀ x first second last,
            x.2 !! "first_name" = Some (VStr first) →
            x.2 !! "second_name" = Some (VStr second) →
            x.2 !! "surname" = Some (VStr last) →
            ∃ y, (x ∈ dataframe → y ∈ full) ∧ y.1 = x.1 ∧
                 y.2 !! "first_name" = Some (VStr (normalized first)) ∧
                 y.2 !! "second_name" = Some (VStr (normalized second)) ∧
                 y.2 !! "surname" = Some (VStr (normalized last)) ∧
                 y.2 !! "full_name"
                 = Some (VStr (normalized first +:+ " "
                               +:+ normalized second +:+ " "
                               +:+ normalized last)) ∧
                 (∀ z, z ∈ dataframe → z = x →
                       (λ w : value * row,
                          (w.1, <["full_name":=match Newer.fullname w.2 with
                                               | Some (Some v) => v
                                               | _ => VStr ""
                                               end]> w.2)) (name_row z) = y)).
  { intros [index r] first second last Hf Hs Hl. cbn [snd] in Hf, Hs, Hl.
    destruct (name_row_cells index r _ _ _ Hf Hs Hl)
      as (r' & Hr' & Hf' & Hs' & Hl' & _).
    eexists (index, <["full_name":=_]> r'). split.
    { intros Hx. unfold full. apply list_elem_of_fmap.
      exists (index, r'). split; [reflexivity|].
      apply list_elem_of_fmap. by exists (index, r). }
    cbn [fst snd]. split; [done|].
    rewrite !lookup_insert_ne by done. rewrite lookup_insert_eq.
    unfold Newer.fullname. rewrite Hf', Hs', Hl'. cbn [mbind option_bind].
    repeat (split; [done|]).
    intros z _ ->. rewrite Hr'. cbn [fst snd]. unfold Newer.fullname.
    by rewrite Hf', Hs', Hl'. }
  assert (Hfull : has_column "full_name" full).
  { unfold has_column, full. apply Forall_forall. intros y Hy.
    apply list_elem_of_fmap in Hy as (x & -> & _). cbn [snd].
    by rewrite lookup_insert_eq. }
  exists (keep_first "full_name" [] full).
  assert (Hsub : keep_first "full_name" [] full `sublist_of` full)
    by apply keep_first_sublist.
  split.
  { unfold Newer.loaded. rewrite Hnamed. cbn [mbind option_bind].
    unfold Newer.deduplicate. by apply drop_duplicates_defined. }
  split.
  { apply sublist_length in Hsub. unfold full in Hsub.
    by rewrite !length_map in Hsub. }
  split.
  { apply (sublist_NoDup _ full.*1); [|by apply fmap_sublist].
    unfold full.
    assert (Hl : ∀ d : DataFrame,
              (map (λ x : value * row,
                      (x.1, <["full_name":=match Newer.fullname x.2 with
                                           | Some (Some v) => v
                                           | _ => VStr ""
                                           end]> x.2)) d).*1 = d.*1).
    { intros d. induction d as [|x rest IH]; [done|].
      rewrite map_cons, !fmap_cons. by rewrite IH. }
    by rewrite Hl, name_row_labels. }
  split; [apply keep_first_NoDup|]. split.
  - apply Forall_forall. intros y Hy.
    apply (elem_of_sublist _ _ _ Hy) in Hsub. unfold full in Hsub.
    apply list_elem_of_fmap in Hsub as (w & -> & Hw).
    apply list_elem_of_fmap in Hw as (x & -> & Hx).
    destruct (is_text_cell _ (proj1 (Forall_forall _ _) Hfirst _ Hx))
      as [first Hf].
    destruct (is_text_cell _ (proj1 (Forall_forall _ _) Hsecond _ Hx))
      as [second Hs].
    destruct (is_text_cell _ (proj1 (Forall_forall _ _) Hsurname _ Hx))
      as [last Hl].
    destruct (Hrow x first second last Hf Hs Hl)
      as (y & _ & Hy1 & Hyf & Hys & Hyl & Hyn & Hsame).
    rewrite (Hsame x Hx eq_refl).
    by exists x, first, second, last.
  - intros x first second last Hx Hf Hs Hl.
    destruct (Hrow x first second last Hf Hs Hl)
      as (y & Hin & _ & _ & _ & _ & Hyn & _).
    destruct (keep_first_represents "full_name" [] full y (Hin Hx))
      as [Hseen|(y' & Hy' & Hkey)]; [by apply elem_of_nil in Hseen|].
    exists y'. split; [done|]. by rewrite Hkey.
Qed.

Lemma loaded_result_witness :
  ∃ result,
    Newer.loaded sample_names = Some result ∧
    (length result ≤ length sample_names)%nat ∧
    NoDup result.*1 ∧
    NoDup ((λ x : value * row, x.2 !! "full_name") <$> result) ∧
    Forall (λ y : value * row,
              ∃ x first second last,
                x ∈ sample_names ∧ y.1 = x.1 ∧
                x.2 !! "first_name" = Some (VStr first) ∧
                x.2 !! "second_name" = Some (VStr second) ∧
                x.2 !! "surname" = Some (VStr last) ∧
                y.2 !! "first_name" = Some (VStr (normalized first)) ∧
                y.2 !! "second_name" = Some (VStr (normalized second)) ∧
                y.2 !! "surname" = Some (VStr (normalized last)) ∧
                y.2 !! "full_name"
                = Some (VStr (normalized first +:+ " " +:+ normalized second
                              +:+ " " +:+ normalized last))) result ∧
    (∀ x first second last,
       x ∈ sample_names →
       x.2 !! "first_name" = Some (VStr first) →
       x.2 !! "second_name" = Some (VStr second) →
       x.2 !! "surname" = Some (VStr last) →
       ∃ y, y ∈ result ∧
            y.2 !! "full_name"
            = Some (VStr (normalized first +:+ " " +:+ normalized second
                          +:+ " " +:+ normalized last))).
Proof. apply (loaded_result sample_names); compute_done. Defined.

(** *** Labels that repeat in the legacy pipeline

    The legacy loader keeps the labels of the file: a label shared by
    several submissions is still shared when the evaluator runs, and every
    row under it ends with the verdict written last. *)



(** *** Row labels after the newer loader *)

Lemma set_value_labels (dataframe : DataFrame) index column v :
  (set_value dataframe index column v).*1 = dataframe.*1.
Proof.
  unfold set_value. induction dataframe as [|x rest IH]; [done|].
  rewrite map_cons, !fmap_cons, IH. by case_decide.
Qed.

(** In a loop that writes on every turn, once the row of a label has had
    its turn all rows of that label hold one and the same cell. *)
Lemma iterrows_store_by_label column cell (pending dataframe result : DataFrame)
    (served : list value) :
  Forall (λ x : value * row, ∃ v, cell x.2 = Some (Some v)) pending →
  (∀ x y, x ∈ dataframe → y ∈ dataframe → x.1 = y.1 → x.1 ∈ served →
          x.2 !! column = y.2 !! column) →
  iterrows (store column cell) pending dataframe = Some result →
  ∀ x y, x ∈ result → y ∈ result → x.1 = y.1 →
         x.1 ∈ served ++ pending.*1 →
         x.2 !! column = y.2 !! column.
Proof.
  revert dataframe served.
  induction pending as [|[index r] rest IH];
    intros dataframe served Hwrites Hserved; cbn [iterrows].
  - intros [= <-] x y Hx Hy Hxy Hin. rewrite app_nil_r in Hin. eauto.
  - apply Forall_cons in Hwrites as [[v Hv] Hwrites]. cbn [snd] in Hv.
    rewrite (store_defined _ _ _ _ dataframe _ Hv). cbn [mbind option_bind].
    intros Hrun x y Hx Hy Hxy Hin.
    apply (IH (set_value dataframe index column v) (index :: served)
              Hwrites); [|done..|].
    + clear -Hserved. intros x' y'. unfold set_value.
      intros (x & -> & Hx)%list_elem_of_fmap (y & -> & Hy)%list_elem_of_fmap.
      destruct (decide (x.1 = index)) as [Hxi|Hxi];
      destruct (decide (y.1 = index)) as [Hyi|Hyi]; cbn [fst snd].
      * intros _ _. by rewrite !lookup_insert_eq.
      * intros Heq. congruence.
      * intros Heq. congruence.
      * intros Heq [Hi|Hs]%elem_of_cons; [congruence|]. by apply Hserved.
    + rewrite fmap_cons in Hin. cbn [fst] in Hin.
      rewrite elem_of_app, elem_of_cons in Hin.
      rewrite elem_of_app, elem_of_cons. tauto.
Qed.

Lemma NoDup_by_cells {A B C} (f : A → B) (g : A → C) (l : list A) :
  (∀ x y, x ∈ l → y ∈ l → g x = g y → f x = f y) →
  NoDup (f <$> l) → NoDup (g <$> l).
Proof.
  induction l as [|x l IH]; intros Hsame; [constructor|].
  rewrite !fmap_cons, !NoDup_cons. intros [Hx Hnd]. split.
  - intros (y & Hxy & Hy)%list_elem_of_fmap. apply Hx.
    apply list_elem_of_fmap. exists y. split; [|done].
    apply Hsame; [apply elem_of_cons; by left
                 |apply elem_of_cons; by right|done].
  - apply IH; [|done]. intros y z Hy Hz.
    apply Hsame; apply elem_of_cons; by right.
Qed.

Lemma fullname_writes (r : row) : Newer.fullname r ≠ Some None.
Proof.
  unfold Newer.fullname.
  destruct (r !! "first_name") as [[f| |]|]; try done;
  destruct (r !! "second_name") as [[s| |]|]; try done;
  destruct (r !! "surname") as [[l| |]|]; done.
Qed.

(** Whatever the labels are, [Newer.named] returns a frame when the three
    name columns hold text, and in that frame the rows of one label carry
    one full name. *)
Lemma named_by_label (dataframe : DataFrame) :
  has_text "first_name" dataframe →
  has_text "second_name" dataframe →
  has_text "surname" dataframe →
  lacks_column "full_name" dataframe →
  ∃ full,
    Newer.named dataframe = Some full ∧
    same_but "full_name" (map name_row dataframe) full ∧
    has_column "full_name" full ∧
    ∀ x y, x ∈ full → y ∈ full → x.1 = y.1 →
           x.2 !! "full_name" = y.2 !! "full_name".
Proof.
  intros Hfirst Hsecond Hsurname Hnone. unfold Newer.named.
  rewrite normalize_names_closed by done. cbn [mbind option_bind].
  unfold Newer.create_full_name.
  rewrite insert_column_new by by apply name_row_lacks_full_name.
  cbn [mbind option_bind].
  set (fresh := assign_column "full_name" (VStr "") (map name_row dataframe)).
  assert (Hcells : Forall (λ x : value * row,
                             ∃ v, Newer.fullname x.2 = Some (Some v)) fresh).
  { unfold fresh, assign_column. apply Forall_forall. intros y Hy.
    apply list_elem_of_fmap in Hy as (x & -> & Hx). cbn [snd].
    rewrite fullname_blind.
    pose proof (proj1 (Forall_forall _ _)
                  (name_row_fullname _ Hfirst Hsecond Hsurname) x Hx) as Hdef.
    cbn beta in Hdef.
    destruct (Newer.fullname x.2) as [[v|]|] eqn:Hcell;
      [by eexists|by apply fullname_writes in Hcell|by destruct Hdef]. }
  destruct (iterrows_store_frame "full_name" Newer.fullname fresh fresh)
    as (full & Hrun & Hsame).
  { eapply Forall_impl; [exact Hcells|]. intros x [v Hv]. by rewrite Hv. }
  exists full. split; [done|]. split; [|split].
  - eapply same_but_trans; [|exact Hsame]. apply same_but_assign_column.
  - apply (iterrows_store_has_column _ _ _ _ _
             (assign_column_has_column _ _ _) Hrun).
  - intros x y Hx Hy Hxy.
    apply (iterrows_store_by_label "full_name" Newer.fullname fresh fresh full
             [] Hcells); [|done..|].
    + intros ? ? _ _ _ Hin. by apply elem_of_nil in Hin.
    + rewrite app_nil_l.
      assert (Hlabels : full.*1 = fresh.*1).
      { clear -Hsame. unfold same_but in Hsame.
        induction Hsame as [|a b ? ? [Hab _] _ IH]; [done|].
        rewrite !fmap_cons. by rewrite IH, Hab. }
      rewrite <- Hlabels. apply list_elem_of_fmap. by exists x.
Qed.

Lemma name_row_has_column c (dataframe : DataFrame) :
  c ≠ "first_name" → c ≠ "second_name" → c ≠ "surname" →
  has_column c dataframe → has_column c (map name_row dataframe).
Proof.
  intros Hf Hs Hl Hcol. unfold has_column. apply Forall_forall. intros y Hy.
  apply list_elem_of_fmap in Hy as (x & -> & Hx).
  unfold name_row, retext. cbn [fst snd].
  rewrite !lookup_insert_ne by done.
  by apply (proj1 (Forall_forall _ _) Hcol).
Qed.

(** The frame the newer loader returns has distinct row labels, whatever
    the labels of the CSV file were: [create_full_name] writes by label, so
    rows filed under one label leave it with one full name, and the pass on
    full names keeps the first of them only. *)
Lemma loaded_distinct_labels (dataframe : DataFrame) :
  has_text "first_name" dataframe →
  has_text "second_name" dataframe →
  has_text "surname" dataframe →
  lacks_column "full_name" dataframe →
  ∃ result,
    Newer.loaded dataframe = Some result ∧
    NoDup result.*1 ∧
    ∀ c, c ≠ "first_name" → c ≠ "second_name" → c ≠ "surname" →
         c ≠ "full_name" →
         has_column c dataframe → has_column c result.
Proof.
  intros Hfirst Hsecond Hsurname Hnone.
  destruct (named_by_label _ Hfirst Hsecond Hsurname Hnone)
    as (full & Hnamed & Hsame & Hfull & Hlabel).
  exists (keep_first "full_name" [] full).
  assert (Hsub : keep_first "full_name" [] full `sublist_of` full)
    by apply keep_first_sublist.
  split; [|split].
  - unfold Newer.loaded. rewrite Hnamed. cbn [mbind option_bind].
    unfold Newer.deduplicate. by apply drop_duplicates_defined.
  - apply (NoDup_by_cells (λ x : value * row, x.2 !! "full_name") fst);
      [|apply keep_first_NoDup].
    intros x y Hx Hy.
    apply Hlabel; by apply (elem_of_sublist (keep_first "full_name" [] full)).
  - intros c Hf Hs Hl Hn Hcol.
    apply (cells_sublist c is_Some _ full Hsub).
    apply (same_but_has_column "full_name" c (map name_row dataframe));
      [done|done|]. by apply name_row_has_column.
Qed.

(** C2.  In the newer pipeline the evaluator runs on what the loader
    returns, in whatever order the sort by first name leaves it.  For every
    file the loader accepts, every record of that frame gets the verdict
    "Yes" when biology, chemistry and physics are in A-D and the verdict
    "No" otherwise, whatever its other fields are; no assumption on the
    labels of the file is needed. *)
Theorem newer_pipeline_verdict (dataframe : DataFrame) :
  has_text "first_name" dataframe →
  has_text "second_name" dataframe →
  has_text "surname" dataframe →
  lacks_column "full_name" dataframe →
  has_columns newer_consulted dataframe →
  ∃ loaded,
    Newer.loaded dataframe = Some loaded ∧
    ∀ frame : DataFrame,
      frame ≡ₚ loaded →
      ∃ result,
        Newer.check_qualification frame = Some result ∧
        ∀ (i : nat) index r,
          frame !! i = Some (index, r) →
          ∃ r', result !! i = Some (index, r') ∧
                (uniform_rule r → r' !! "Qualify" = Some (VStr "Yes")) ∧
                (¬ uniform_rule r → r' !! "Qualify" = Some (VStr "No")).
Proof.
  intros Hfirst Hsecond Hsurname Hnone Hcols.
  destruct (loaded_distinct_labels _ Hfirst Hsecond Hsurname Hnone)
    as (loaded & Hloaded & Hnd & Hkeep).
  exists loaded. split; [done|]. intros frame Hperm.
  assert (Hnd' : NoDup frame.*1) by by rewrite Hperm.
  assert (Hcols' : has_columns newer_consulted frame).
  { unfold has_columns in *. apply Forall_forall. intros c Hc.
    pose proof (proj1 (Forall_forall _ _) Hcols c Hc) as Hcol.
    unfold has_column. rewrite Hperm.
    apply Hkeep; [| | | |done];
      repeat (apply elem_of_cons in Hc as [->|Hc]; [done|]);
      by apply elem_of_nil in Hc. }
  rewrite (newer_check_qualification_unique _ Hnd' Hcols').
  eexists. split; [reflexivity|].
  intros i index r Hi.
  rewrite map_lookup_row, Hi. cbn [fmap option_fmap option_map fst snd].
  eexists. split; [reflexivity|]. rewrite lookup_insert_eq.
  assert (Hrow : ∀ c, c ∈ newer_consulted → is_Some (r !! c)).
  { intros c Hc.
    apply (has_columns_row newer_consulted frame (index, r) c Hcols');
      [|done].
    by apply list_elem_of_lookup_2 with i. }
  destruct (newer_qualify_rule r Hrow) as [Hyes Hno].
  split; intros Hrule; [rewrite (Hyes Hrule)|rewrite (Hno Hrule)]; done.
Qed.

Lemma newer_pipeline_verdict_witness :
  ∃ loaded,
    Newer.loaded admissions = Some loaded ∧
    ∀ frame : DataFrame,
      frame ≡ₚ loaded →
      ∃ result,
        Newer.check_qualification frame = Some result ∧
        ∀ (i : nat) index r,
          frame !! i = Some (index, r) →
          ∃ r', result !! i = Some (index, r') ∧
                (uniform_rule r → r' !! "Qualify" = Some (VStr "Yes")) ∧
                (¬ uniform_rule r → r' !! "Qualify" = Some (VStr "No")).
Proof. apply (newer_pipeline_verdict admissions); compute_done. Defined.

(** What the newer pipeline makes of the four submissions: the two filed
    under one label leave the loader as one record, the first, and the
    record with D in the three subjects qualifies while the one with F in
    biology does not. *)
Example admissions_verdicts :
  (loaded ← Newer.loaded admissions;
   result ← Newer.check_qualification loaded;
   Some (map (λ x : value * row,
                (x.1, x.2 !! "first_name", x.2 !! "biology",
                 x.2 !! "Qualify")) result))
  = Some [(VStr "2020/08/03 09:00:41", Some (VStr "ASHA"),
           Some (VStr "D"), Some (VStr "Yes"));
          (VStr "2020/08/03 09:12:07", Some (VStr "NEEMA"),
           Some (VStr "F"), Some (VStr "No"))].
Proof. compute_done. Qed.

(** The evaluator called on a frame that did not come from the loader: two
    records under one label share the verdict written last.  [run] never
    does this. *)
Example unloaded_share_verdict :
  map (λ x : value * row, (x.2 !! "biology", x.2 !! "Qualify"))
    <$> Newer.check_qualification unloaded
  = Some [(Some (VStr "C"), Some (VStr "No"));
          (Some (VStr "F"), Some (VStr "No"))].
Proof. compute_done. Qed.

(** *** The texts [strptime] accepts *)

Lemma digit_inv c n : digit c = Some n → c = digit_char n ∧ 0 ≤ n ≤ 9.
Proof.
  intros Hc. pose proof (digit_range _ _ Hc) as Hn. split; [|done].
  revert Hc. unfold digit. cbv zeta. case_match; [|done]. intros [= <-].
  unfold digit_char.
  replace (48 + Z.to_nat (Z.of_nat (nat_of_ascii c) - 48))%nat
    with (nat_of_ascii c) by lia.
  by rewrite ascii_nat_embedding.
Qed.

Lemma read_year_inv s y rest :
  read_year s = Some (y, rest) → s = four_digits y +:+ rest.
Proof.
  unfold read_year.
  destruct s as [|a [|b [|c [|d s]]]]; try done.
  destruct (digit a) as [na|] eqn:Ha; [|done].
  destruct (digit b) as [nb|] eqn:Hb; [|done].
  destruct (digit c) as [nc|] eqn:Hc; [|done].
  destruct (digit d) as [nd|] eqn:Hd; [|done].
  cbn [mbind option_bind]. intros [= <- <-].
  apply digit_inv in Ha as [-> Ha], Hb as [-> Hb], Hc as [-> Hc],
    Hd as [-> Hd].
  unfold four_digits, two_digits. rewrite !app_cons, app_empty.
  repeat f_equal; Z.div_mod_to_equations; lia.
Qed.

Lemma expect_inv c s rest : expect c s = Some rest → s = String c rest.
Proof.
  destruct s as [|c' s]; [done|]. cbn [expect]. case_decide; [|done].
  by intros [= <-]; subst.
Qed.

Lemma two_digits_of a b :
  0 ≤ a ≤ 9 → 0 ≤ b ≤ 9 →
  String (digit_char a) (String (digit_char b) "") = two_digits (10 * a + b).
Proof.
  intros Ha Hb. unfold two_digits.
  repeat f_equal; Z.div_mod_to_equations; lia.
Qed.

Lemma read_month_inv s m rest :
  read_month s = Some (m, rest) →
  ∃ text, text ∈ month_writings m ∧ s = text +:+ rest.
Proof.
  destruct s as [|a s]; [done|]. unfold read_month.
  destruct (digit a) as [na|] eqn:Ha; [|done].
  apply digit_inv in Ha as [-> Ha]. cbn [mbind option_bind].
  assert (Hone : (if 1 <=? na then Some (na, s) else None) = Some (m, rest) →
                 ∃ text, text ∈ month_writings m
                         ∧ String (digit_char na) s = text +:+ rest).
  { case_match; [|done]. intros [= <- <-]. exists (digit_text na).
    split; [|by unfold digit_text; rewrite app_cons, app_empty].
    unfold month_writings. replace (na <? 10) with true by lia.
    apply elem_of_cons. right. apply elem_of_cons. by left. }
  destruct s as [|b s]; [done|].
  destruct (digit b) as [nb|] eqn:Hb; [|done].
  apply digit_inv in Hb as [-> Hb]. cbn [mbind option_bind].
  destruct ((na =? 1) && (nb <=? 2)) eqn:Hten.
  { intros [= <- <-]. exists (two_digits (10 + nb)).
    split; [apply elem_of_cons; by left|].
    assert (na = 1) as -> by lia.
    change (String (digit_char 1) (String (digit_char nb) s))
      with (String (digit_char 1) (String (digit_char nb) "") +:+ s).
    by rewrite (two_digits_of 1 nb) by lia. }
  destruct ((na =? 0) && (1 <=? nb)) eqn:Hnought; [|done].
  intros [= <- <-]. exists (two_digits nb).
  split; [apply elem_of_cons; by left|].
  assert (na = 0) as -> by lia.
  change (String (digit_char 0) (String (digit_char nb) s))
    with (String (digit_char 0) (String (digit_char nb) "") +:+ s).
  by rewrite (two_digits_of 0 nb) by lia.
Qed.

Lemma read_day_inv s d rest :
  read_day s = Some (d, rest) →
  ∃ text, text ∈ day_writings d ∧ s = text +:+ rest.
Proof.
  destruct s as [|a s]; [done|]. unfold read_day.
  destruct (digit a) as [na|] eqn:Ha.
  - apply digit_inv in Ha as [-> Ha].
    assert (Hone : (if 1 <=? na then Some (na, s) else None)
                   = Some (d, rest) →
                   ∃ text, text ∈ day_writings d
                           ∧ String (digit_char na) s = text +:+ rest).
    { case_match; [|done]. intros [= <- <-]. exists (digit_text na).
      split; [|by unfold digit_text; rewrite app_cons, app_empty].
      unfold day_writings. replace (na <? 10) with true by lia.
      apply elem_of_cons. right. apply elem_of_cons. by left. }
    destruct s as [|b s]; [done|].
    destruct (digit b) as [nb|] eqn:Hb; [|done].
    apply digit_inv in Hb as [-> Hb]. cbn [mbind option_bind].
    assert (Htwo : String (digit_char na) (String (digit_char nb) s)
                   = two_digits (10 * na + nb) +:+ s).
    { by rewrite <- two_digits_of by lia. }
    destruct ((na =? 3) && (nb <=? 1)) eqn:Hthirty.
    { intros [= <- <-]. exists (two_digits (30 + nb)).
      split; [apply elem_of_cons; by left|].
      rewrite Htwo. do 2 f_equal. lia. }
    destruct ((1 <=? na) && (na <=? 2)) eqn:Hteens.
    { intros [= <- <-]. exists (two_digits (10 * na + nb)).
      split; [apply elem_of_cons; by left|]. done. }
    destruct ((na =? 0) && (1 <=? nb)) eqn:Hnought; [|done].
    intros [= <- <-]. exists (two_digits nb).
    split; [apply elem_of_cons; by left|].
    rewrite Htwo. do 2 f_equal. lia.
  - case_decide as Hspace; [subst a|done].
    destruct s as [|b s]; [done|].
    destruct (digit b) as [nb|] eqn:Hb; [|done].
    apply digit_inv in Hb as [-> Hb]. cbn [mbind option_bind].
    case_match; [|done]. intros [= <- <-].
    exists (String " " (digit_text nb)).
    split; [|by unfold digit_text; rewrite !app_cons, app_empty].
    unfold day_writings. replace (nb <? 10) with true by lia.
    apply elem_of_cons. right. apply elem_of_cons. right.
    apply elem_of_cons. by left.
Qed.

Lemma read_month_writing m text rest :
  1 ≤ m ≤ 12 → text ∈ month_writings m →
  read_month (text +:+ String "-" rest) = Some (m, String "-" rest).
Proof.
  intros Hm. unfold month_writings.
  rewrite elem_of_cons. intros [->|Hone].
  { by apply read_month_two_digits. }
  destruct (m <? 10) eqn:Hlow; [|by apply elem_of_nil in Hone].
  apply list_elem_of_singleton in Hone as ->.
  assert (Hcases : m = 1 ∨ m = 2 ∨ m = 3 ∨ m = 4 ∨ m = 5 ∨ m = 6 ∨ m = 7
                   ∨ m = 8 ∨ m = 9) by lia.
  repeat (destruct Hcases as [->|Hcases]; [reflexivity|]).
  by subst m.
Qed.

Lemma read_day_writing d text :
  1 ≤ d ≤ 31 → text ∈ day_writings d →
  read_day (text +:+ "") = Some (d, "").
Proof.
  intros Hd. unfold day_writings.
  rewrite elem_of_cons. intros [->|Hone].
  { by apply read_day_two_digits. }
  destruct (d <? 10) eqn:Hlow; [|by apply elem_of_nil in Hone].
  assert (Hcases : d = 1 ∨ d = 2 ∨ d = 3 ∨ d = 4 ∨ d = 5 ∨ d = 6 ∨ d = 7
                   ∨ d = 8 ∨ d = 9) by lia.
  apply elem_of_cons in Hone as [->|Hone].
  { repeat (destruct Hcases as [->|Hcases]; [reflexivity|]). by subst d. }
  apply list_elem_of_singleton in Hone as ->.
  repeat (destruct Hcases as [->|Hcases]; [reflexivity|]). by subst d.
Qed.

(** The texts that are accepted, and the date each of them gives. *)
Lemma strptime_accepts (born : string) (birth : date) :
  strptime born = Some birth ↔ calendar birth ∧ born ∈ writings birth.
Proof.
  split.
  - intros Hparse. split; [by apply strptime_calendar with born|].
    revert Hparse. unfold strptime.
    destruct (read_year born) as [[y rest]|] eqn:Hy; [|done].
    cbn [mbind option_bind].
    destruct (expect "-" rest) as [rest1|] eqn:Hrest; [|done].
    cbn [mbind option_bind].
    destruct (read_month rest1) as [[m rest2]|] eqn:Hm; [|done].
    cbn [mbind option_bind].
    destruct (expect "-" rest2) as [rest3|] eqn:Hrest2; [|done].
    cbn [mbind option_bind].
    destruct (read_day rest3) as [[d rest4]|] eqn:Hd; [|done].
    cbn [mbind option_bind].
    case_decide as Hend; [subst rest4|done]. case_match; [|done].
    intros [= <-].
    apply read_year_inv in Hy as ->. apply expect_inv in Hrest as ->.
    apply read_month_inv in Hm as (mt & Hmt & ->).
    apply expect_inv in Hrest2 as ->.
    apply read_day_inv in Hd as (dt & Hdt & ->).
    unfold writings. cbn [year month day].
    apply list_elem_of_bind. exists mt. split; [|done].
    apply list_elem_of_bind. exists dt. split; [|done].
    apply list_elem_of_singleton.
    by rewrite !app_cons, !app_empty, app_empty_r.
  - destruct birth as [y m d]. unfold calendar, writings.
    cbn [year month day]. intros [(Hy & Hm & Hd) Hborn].
    pose proof (days_in_month_bound y m) as Hmax.
    apply list_elem_of_bind in Hborn as (mt & Hborn & Hmt).
    apply list_elem_of_bind in Hborn as (dt & Hborn & Hdt).
    apply list_elem_of_singleton in Hborn as ->.
    unfold strptime.
    rewrite read_year_four_digits by lia. cbn [mbind option_bind].
    rewrite !app_cons, !app_empty. cbn [expect].
    rewrite decide_True by done. cbn [mbind option_bind].
    rewrite (read_month_writing m) by (done || lia).
    cbn [mbind option_bind expect].
    rewrite decide_True by done. cbn [mbind option_bind].
    rewrite <- (app_empty_r dt).
    rewrite (read_day_writing d) by (done || lia).
    cbn [mbind option_bind].
    rewrite decide_True by done.
    replace (1 <=? y) with true by lia. replace (1 <=? m) with true by lia.
    replace (m <=? 12) with true by lia. replace (1 <=? d) with true by lia.
    replace (d <=? days_in_month y m) with true by lia. done.
Qed.

(** X7.  [strptime] with the format of the scripts accepts exactly the
    writings of the dates of the calendar (year 1 to 9999, month 1 to 12, a
    day the month has in that year) and returns the date written: the year
    in four digits, a hyphen, the month in two digits or, below ten, in
    one, a hyphen, and the day in two digits or, below ten, in one digit or
    in one digit after a space.  Every other text raises, and with it
    [calculate_age]. *)
Theorem strptime_writings (born : string) :
  (∀ birth, strptime born = Some birth
            ↔ calendar birth ∧ born ∈ writings birth) ∧
  (strptime born = None
   ↔ ∀ birth, calendar birth → born ∉ writings birth) ∧
  (∀ today, calculate_age today born = None ↔ strptime born = None).
Proof.
  split; [intros birth; apply strptime_accepts|]. split.
  - destruct (strptime born) as [birth|] eqn:Hparse.
    + split; [done|]. intros Hnone.
      apply strptime_accepts in Hparse as [Hdate Hin].
      by destruct (Hnone birth Hdate).
    + split; [|done]. intros _ birth Hdate Hin.
      assert (Hsome : strptime born = Some birth)
        by by apply strptime_accepts.
      congruence.
  - intros today. unfold calculate_age.
    by destruct (strptime born) as [birth|].
Qed.

(** Texts of one date that are accepted, and texts that are refused: a
    year of two digits, a day the month does not have, a time after the
    date, the order day-month-year. *)
Example strptime_samples :
  strptime "2000-02-29" = Some (Date 2000 2 29) ∧
  strptime "2000-2- 9" = Some (Date 2000 2 9) ∧
  strptime "99-07-24" = None ∧
  strptime "1999-02-29" = None ∧
  strptime "1999-07-24 10:15" = None ∧
  strptime "24-07-1999" = None.
Proof. repeat split; reflexivity. Qed.
